(** * Script(Modded).py: backward month search and config rewriting

    A shallow embedding of the script that walks an Energy Star metrics
    endpoint backwards month by month and rewrites [inputs.conf].

    What is inside the model: the [configparser] object (sections in file
    order, options per section, the defaults), the file on disk, the log of
    HTTP requests, every branch of [get_score], [extract_property_id] and
    [main], and the exceptions those branches raise, catch or let through.

    What is supplied by the environment: the outcome of each HTTP GET
    together with the XML flattening ([soup.text.strip()]), the outcome of
    each attempt to rewrite the file, and today's date.  Logging calls are
    left out: they touch neither the config nor the control flow.  The file
    is taken to hold the config object that was written to it, so reading
    back what [config.write] produced gives the same sections and options.
    Interpolation of option values is left out as well (no value the script
    writes holds a percent sign).  Characters are bytes, so [\d] is the ten
    ASCII digits. *)

From Stdlib Require Import ZArith String Ascii List Bool Lia.
From stdpp Require Import base option list strings gmap pretty.

Local Open Scope string_scope.
Local Open Scope Z_scope.

(** ** Exceptions *)

Inductive exn :=
| NoSectionError
| NoOptionError
| ParsingError
| OSError
| UnboundLocalError.

(** A computation that either raises or returns. *)
Definition res (A : Type) : Type := exn + A.

Definition raise {A} (e : exn) : res A := inl e.
Definition ret {A} (a : A) : res A := inr a.

(** ** ConfigStore: the [configparser.ConfigParser] object *)

Module Config.

(** [order] is what [sections()] lists, [sects] maps a section name to
    its own options, [defaults] is the default section that [get] and
    [has_option] fall back to.  The script only passes names taken from
    [sections()], which never lists the default section, so the branch
    of [set]/[has_option] for the default section's own name is absent.
    [get] and [set] are those of the library on values without a percent
    sign: there a read is the stored value and a write is never refused.
    Interpolation, under which a read can raise or depend on other options
    and a write of a stray percent sign is refused, is outside; the
    statements that need the two to agree carry [plain_config] or take
    the result of the call as a hypothesis. *)
Record t := mk {
  order : list string;
  defaults : gmap string string;
  sects : gmap string (gmap string string)
}.

Definition empty : t := mk [] ∅ ∅.

Definition sections (c : t) : list string := order c.

Definition has_section (c : t) (section : string) : bool :=
  bool_decide (is_Some (sects c !! section)).

Definition has_option (c : t) (section option : string) : bool :=
  match sects c !! section with
  | None => false
  | Some d =>
      bool_decide (is_Some (d !! option))
      || bool_decide (is_Some (defaults c !! option))
  end.

Definition get (c : t) (section option : string) : res string :=
  match sects c !! section with
  | None => raise NoSectionError
  | Some d =>
      match d !! option with
      | Some v => ret v
      | None =>
          match defaults c !! option with
          | Some v => ret v
          | None => raise NoOptionError
          end
      end
  end.

Definition set (c : t) (section option value : string) : res t :=
  match sects c !! section with
  | None => raise NoSectionError
  | Some d =>
      ret (mk (order c) (defaults c) (<[section := <[option := value]> d]> (sects c)))
  end.

End Config.

(** ** The outside world *)

(** What is found at the config file's path. *)
Inductive file :=
| NoFile
| Garbled
| Conf (c : Config.t).

(** Lines 100-104: [requests.get], [raise_for_status], the XML parse and
    [soup.text.strip()], seen from the [try] block around them. *)
Inductive response :=
| HttpError
| ParseFailure
| ScoreText (score_text : string).

(** [open(config_file, 'w')] followed by [config.write]: either the file
    now holds the config, or an [OSError] is raised and the file is left
    in whatever state the failure produced. *)
Inductive write_outcome :=
| WriteOk
| WriteRaises (left_behind : file).

Record Env := {
  http : nat → response;
  file_write : nat → write_outcome;
  current_year : Z;
  current_month : Z
}.

Record World := {
  disk : file;
  requests : list string;
  writes : nat
}.

Definition http_get (env : Env) (url : string) (w : World) : response * World :=
  (http env (length (requests w)),
   {| disk := disk w; requests := requests w ++ [url]; writes := writes w |}).

Definition write_config (env : Env) (c : Config.t) (w : World) : res unit * World :=
  match file_write env (writes w) with
  | WriteOk =>
      (ret tt, {| disk := Conf c; requests := requests w; writes := S (writes w) |})
  | WriteRaises f =>
      (raise OSError, {| disk := f; requests := requests w; writes := S (writes w) |})
  end.

(** [read_config]: [config.read] ignores a file it cannot open and raises
    on one it cannot parse; the handler logs and re-raises. *)
Definition read_config (w : World) : res Config.t :=
  match disk w with
  | NoFile => ret Config.empty
  | Garbled => raise ParsingError
  | Conf c => ret c
  end.

(** ** Strings: the URL template and the property-id pattern *)

Definition base_url : string :=
  "https://portfoliomanager.energystar.gov/ws/property/".

(** The f-string of lines 89 and 121. *)
Definition metrics_url (property_id : string) (year month : Z) : string :=
  base_url ++ property_id ++ "/metrics?year=" ++ pretty year
           ++ "&month=" ++ pretty month.

(** The ten ASCII digits, which is what [\d] matches in ASCII text; in
    other text [\d] also takes the decimal digits of other scripts. *)
Definition is_digit (a : ascii) : bool :=
  let n := nat_of_ascii a in ((48 <=? n) && (n <=? 57))%nat.

(** The longest run of digits at the head of [s], and what follows it. *)
Fixpoint span_digits (s : string) : string * string :=
  match s with
  | String a s' =>
      if is_digit a
      then let '(ds, rest) := span_digits s' in (String a ds, rest)
      else ("", s)
  | EmptyString => ("", s)
  end.

(** [s] with the literal [p] removed from its head, if [s] starts with it. *)
Fixpoint strip_prefix (p s : string) : option string :=
  match p, s with
  | EmptyString, _ => Some s
  | String a p', String b s' =>
      if Ascii.eqb a b then strip_prefix p' s' else None
  | String _ _, EmptyString => None
  end.

(** The pattern [/property/(\d+)/metrics] tried at the head of [s]; the
    result is group 1.  The greedy [\d+] takes the whole run of digits:
    giving one back leaves a digit where the slash is wanted. *)
Definition match_here (s : string) : option string :=
  match strip_prefix "/property/" s with
  | None => None
  | Some s1 =>
      let '(ds, s2) := span_digits s1 in
      match ds with
      | EmptyString => None
      | String _ _ =>
          match strip_prefix "/metrics" s2 with
          | Some _ => Some ds
          | None => None
          end
      end
  end.

(** [re.search]: the leftmost position where the pattern matches. *)
Fixpoint re_search (s : string) : option string :=
  match match_here s with
  | Some ds => Some ds
  | None =>
      match s with
      | String _ s' => re_search s'
      | EmptyString => None
      end
  end.

Definition extract_property_id (endpoint_value : string) : option string :=
  re_search endpoint_value.

Fixpoint all_digits (s : string) : bool :=
  match s with
  | String a s' => is_digit a && all_digits s'
  | EmptyString => true
  end.

(** The spec's wording: the URL contains [/property/{digits}/metrics]. *)
Definition has_property_pattern (url : string) : Prop :=
  ∃ before ds after,
    url = before ++ "/property/" ++ ds ++ "/metrics" ++ after
    ∧ ds ≠ "" ∧ all_digits ds = true.

Definition contains (needle hay : string) : Prop :=
  ∃ before after, hay = before ++ needle ++ after.

(** ** CredentialResolver *)

(** [None] when the section is absent or [NoOptionError] is caught; any
    other exception of [config.get] is not caught here. *)
Definition get_credentials_from_config (config : Config.t) (section_name : string)
  : res (option (string * string)) :=
  if negb (Config.has_section config section_name) then ret None
  else
    match Config.get config section_name "auth_user" with
    | inl NoOptionError => ret None
    | inl e => raise e
    | inr auth_user =>
        match Config.get config section_name "auth_password" with
        | inl NoOptionError => ret None
        | inl e => raise e
        | inr auth_password => ret (Some (auth_user, auth_password))
        end
    end.

(** ** BackwardSearch and EndpointUpdater: [get_score] *)

Definition sentinel : string := "rest://WeatherTest3".

(** The locals [year], [month] and [years_checked] of [get_score]. *)
Record SearchState := {
  year : Z;
  month : Z;
  years_checked : Z
}.

(** The returned tuple [(success, year, month)]. *)
Definition score_result : Type := bool * option Z * option Z.

Definition not_found : score_result := (false, None, None).

(** Lines 109-114, repeated at 142-147 and 156-161. *)
Definition previous_month (s : SearchState) : SearchState :=
  if month s =? 1
  then {| year := year s - 1; month := 12; years_checked := years_checked s + 1 |}
  else {| year := year s; month := month s - 1; years_checked := years_checked s |}.

(** What one pass through the loop body leads to. *)
Inductive flow :=
| Continue (s : SearchState)
| Return (r : score_result).

(** The step back with the test after it (lines 116-118, 149-151, 163-165). *)
Definition try_previous_month (max_years_to_check : Z) (s : SearchState) : flow :=
  let s' := previous_month s in
  if years_checked s' >? max_years_to_check then Return not_found else Continue s'.

(** Lines 125-133: the three [config.set] calls mutate the shared object,
    so what they did stays when a later statement raises. *)
Definition write_found (env : Env) (section_name new_endpoint : string)
    (config : Config.t) (w : World) : res unit * Config.t * World :=
  match Config.set config section_name "polling_interval" "999999" with
  | inl e => (raise e, config, w)
  | inr c1 =>
      match Config.set c1 section_name "endpoint" new_endpoint with
      | inl e => (raise e, c1, w)
      | inr c2 =>
          match Config.set c2 section_name "polling_interval" "0 0 5 31 2 ?" with
          | inl e => (raise e, c2, w)
          | inr c3 => let '(r, w') := write_config env c3 w in (r, c3, w')
          end
      end
  end.

(** The body of the [while] loop, lines 89-165. *)
Definition iteration (env : Env) (property_id section_name : string)
    (max_years_to_check : Z) (s : SearchState) (config : Config.t) (w : World)
  : res flow * Config.t * World :=
  match get_credentials_from_config config section_name with
  | inl e => (raise e, config, w)
  | inr None => (ret (Return not_found), config, w)
  | inr (Some _) =>
      let url := metrics_url property_id (year s) (month s) in
      let '(resp, w1) := http_get env url w in
      match resp with
      | HttpError =>
          (* except requests.exceptions.RequestException *)
          (ret (try_previous_month max_years_to_check s), config, w1)
      | ParseFailure =>
          (* except Exception *)
          (ret (try_previous_month max_years_to_check s), config, w1)
      | ScoreText EmptyString =>
          (ret (try_previous_month max_years_to_check s), config, w1)
      | ScoreText (String _ _) =>
          let new_endpoint := metrics_url property_id (year s) (month s) in
          let '(r, c', w2) := write_found env section_name new_endpoint config w1 in
          match r with
          | inr _ => (ret (Return (true, Some (year s), Some (month s))), c', w2)
          | inl _ =>
              (* except Exception *)
              (ret (try_previous_month max_years_to_check s), c', w2)
          end
      end
  end.

(** The [while] loop.  [fuel] bounds how often control goes back to the
    loop head; [None] means the bound was hit. *)
Fixpoint while_loop (fuel : nat) (env : Env) (property_id section_name : string)
    (max_years_to_check : Z) (s : SearchState) (config : Config.t) (w : World)
    {struct fuel} : option (res score_result * Config.t * World) :=
  if years_checked s <=? max_years_to_check then
    match iteration env property_id section_name max_years_to_check s config w with
    | (inl e, c, w') => Some (raise e, c, w')
    | (inr (Return r), c, w') => Some (ret r, c, w')
    | (inr (Continue s'), c, w') =>
        match fuel with
        | O => None
        | S fuel' =>
            while_loop fuel' env property_id section_name max_years_to_check s' c w'
        end
    end
  else Some (ret not_found, config, w).

Definition get_score (fuel : nat) (env : Env) (property_id : string)
    (year month : Z) (section_name : string) (config : Config.t)
    (max_years_to_check : Z) (w : World)
  : option (res score_result * Config.t * World) :=
  if String.eqb section_name sentinel then Some (ret not_found, config, w)
  else
    while_loop fuel env property_id section_name max_years_to_check
      {| year := year; month := month; years_checked := 0 |} config w.

(** ** Orchestrator: [main] *)

Record Tally := {
  updated_count : nat;
  error_count : nat;
  skipped_count : nat
}.

Definition updated (t : Tally) : Tally :=
  {| updated_count := S (updated_count t); error_count := error_count t;
     skipped_count := skipped_count t |}.
Definition errored (t : Tally) : Tally :=
  {| updated_count := updated_count t; error_count := S (error_count t);
     skipped_count := skipped_count t |}.
Definition skipped (t : Tally) : Tally :=
  {| updated_count := updated_count t; error_count := error_count t;
     skipped_count := S (skipped_count t) |}.

(** The loop of lines 202-207, with [modified] as it stands on entry. *)
Fixpoint disable_polling (sections : list string) (config : Config.t)
    (modified : bool) : res (Config.t * bool) :=
  match sections with
  | [] => ret (config, modified)
  | section :: rest =>
      if negb (String.eqb section sentinel)
         && Config.has_option config section "polling_interval"
      then
        match Config.get config section "polling_interval" with
        | inl e => raise e
        | inr current_interval =>
            if negb (String.eqb current_interval "999999") then
              match Config.set config section "polling_interval" "999999" with
              | inl e => raise e
              | inr config' => disable_polling rest config' true
              end
            else disable_polling rest config modified
        end
      else disable_polling rest config modified
  end.

(** Lines 209-214: write and reload, only when something was modified. *)
Definition persist_if_modified (env : Env) (modified : bool)
    (config : Config.t) (w : World) : res Config.t * World :=
  if modified then
    let '(r, w') := write_config env config w in
    match r with
    | inl e => (raise e, w')
    | inr _ => (read_config w', w')
    end
  else (ret config, w).

(** The body of the loop of lines 225-251. *)
Definition process_section (fuel : nat) (env : Env) (section : string)
    (config : Config.t) (t : Tally) (w : World)
  : option (res Tally * Config.t * World) :=
  if String.eqb section sentinel then Some (ret (skipped t), config, w)
  else if negb (Config.has_option config section "endpoint")
  then Some (ret (skipped t), config, w)
  else
    match Config.get config section "endpoint" with
    | inl e => Some (raise e, config, w)
    | inr endpoint =>
        match extract_property_id endpoint with
        | None | Some EmptyString => Some (ret (skipped t), config, w)
        | Some property_id =>
            match get_score fuel env property_id (current_year env)
                    (current_month env) section config 1 w with
            | None => None
            | Some (inl e, c, w') => Some (raise e, c, w')
            | Some (inr (success, _, _), c, w') =>
                if success then Some (ret (updated t), c, w')
                else if negb success then Some (ret (errored t), c, w')
                else Some (ret (skipped t), c, w')
            end
        end
    end.

(** The loop of lines 225-251: the tally reached, and the exception that
    stopped the loop if there was one. *)
Fixpoint main_pass (fuel : nat) (env : Env) (sections : list string)
    (config : Config.t) (t : Tally) (w : World)
  : option (option exn * Tally * Config.t * World) :=
  match sections with
  | [] => Some (None, t, config, w)
  | section :: rest =>
      match process_section fuel env section config t w with
      | None => None
      | Some (inl e, c, w') => Some (Some e, t, c, w')
      | Some (inr t', c, w') => main_pass fuel env rest c t' w'
      end
  end.

(** How a call of [main] ends. *)
Inductive main_result :=
| NoSections
| Complete (t : Tally)
| Caught (e : exn) (errors : nat)
| Uncaught (e : exn).

(** Lines 258-262.  [error_count += 1] needs the local to be bound, which
    it is only from line 223 on. *)
Definition handler (e : exn) (bound : option Tally) : main_result :=
  match bound with
  | Some t => Caught e (S (error_count t))
  | None => Uncaught UnboundLocalError
  end.

(** The [try] block of [main] and its handler, lines 191-262; [run] below
    puts the set-up of lines 188-189 in front of it. *)
Definition main (fuel : nat) (env : Env) (w : World) : option (main_result * World) :=
  match read_config w with
  | inl e => Some (handler e None, w)
  | inr config =>
      let sections := Config.sections config in
      match sections with
      | [] => Some (NoSections, w)
      | _ :: _ =>
          match disable_polling sections config false with
          | inl e => Some (handler e None, w)
          | inr (config1, modified) =>
              match persist_if_modified env modified config1 w with
              | (inl e, w1) => Some (handler e None, w1)
              | (inr config2, w1) =>
                  match main_pass fuel env sections config2
                          {| updated_count := 0; error_count := 0; skipped_count := 0 |}
                          w1 with
                  | None => None
                  | Some (Some e, t, _, w2) => Some (handler e (Some t), w2)
                  | Some (None, t, _, w2) => Some (Complete t, w2)
                  end
              end
          end
      end
  end.

(** The whole of [main], lines 182-262.  [setup_logging] opens the log
    file and [set_working_directory] asks for the working directory, both
    before the [try]: what they raise leaves [main] uncaught. *)
Definition run (setup : res unit) (fuel : nat) (env : Env) (w : World)
  : option (main_result * World) :=
  match setup with
  | inl e => Some (Uncaught e, w)
  | inr _ => main fuel env w
  end.

(** ** Text and configs on which the model is the library *)

Definition ascii_char (a : ascii) : bool := (nat_of_ascii a <? 128)%nat.

(** Nothing but ASCII characters. *)
Fixpoint ascii_only (s : string) : bool :=
  match s with
  | EmptyString => true
  | String a s' => ascii_char a && ascii_only s'
  end.

(** ASCII characters other than the percent sign. *)
Fixpoint plain_value (v : string) : bool :=
  match v with
  | EmptyString => true
  | String a v' => ascii_char a && negb (Ascii.eqb a "%") && plain_value v'
  end.

Definition plain_options (d : gmap string string) : bool :=
  bool_decide (map_Forall (λ _ v, plain_value v = true) d).

(** Every value of every section and of the defaults is plain: no read
    interpolates, no extraction meets a digit outside ASCII. *)
Definition plain_config (c : Config.t) : bool :=
  plain_options (Config.defaults c)
  && bool_decide (map_Forall (λ _ d, plain_options d = true) (Config.sects c)).

(** ** The main pass, branch by branch *)

(** [counted fuel env secs c t w c' t' w']: going over [secs] from config
    [c], tally [t] and world [w] ends with [c'], [t'] and [w'], where each
    section is either skipped before the search (it is the sentinel, has
    no endpoint, or its endpoint gives no property id) and raises Skipped,
    or is searched with the id of its endpoint and raises Updated when the
    search succeeds and Error when it does not. *)
Inductive counted (fuel : nat) (env : Env)
  : list string → Config.t → Tally → World → Config.t → Tally → World → Prop :=
| counted_nil c t w : counted fuel env [] c t w c t w
| counted_skip section rest c t w c' t' w' :
    section = sentinel
    ∨ Config.has_option c section "endpoint" = false
    ∨ (∃ endpoint, Config.get c section "endpoint" = ret endpoint
                   ∧ extract_property_id endpoint = None) →
    counted fuel env rest c (skipped t) w c' t' w' →
    counted fuel env (section :: rest) c t w c' t' w'
| counted_search section rest c t w endpoint property_id success y m c1 w1 c' t' w' :
    section ≠ sentinel →
    Config.get c section "endpoint" = ret endpoint →
    extract_property_id endpoint = Some property_id →
    get_score fuel env property_id (current_year env) (current_month env)
      section c 1 w
    = Some (ret (success, y, m), c1, w1) →
    counted fuel env rest c1 (if success then updated t else errored t) w1 c' t' w' →
    counted fuel env (section :: rest) c t w c' t' w'.

(** ** Fetch results without a score *)

(** [Empty] and [HttpError] of the spec; a failure while parsing counts as
    the latter. *)
Definition is_miss (r : response) : bool :=
  match r with
  | ScoreText (String _ _) => false
  | _ => true
  end.

(** No request is ever answered with a score. *)
Definition no_data (env : Env) : Prop := ∀ n, is_miss (http env n) = true.

(** [w'] is [w] after [k] more requests and nothing else. *)
Definition fetched (k : nat) (w w' : World) : Prop :=
  disk w' = disk w ∧ writes w' = writes w
  ∧ length (requests w') = (length (requests w) + k)%nat.

(** ** What the pre-pass does with one section *)

(** The section is passed over: it is the sentinel, has no interval, or
    has the sentinel value already. *)
Definition polling_left (section : string) (c : Config.t) : Prop :=
  section = sentinel
  ∨ Config.has_option c section "polling_interval" = false
  ∨ Config.get c section "polling_interval" = ret "999999".

(** The section's interval is about to change. *)
Definition polling_due (section : string) (c : Config.t) : Prop :=
  section ≠ sentinel
  ∧ Config.has_option c section "polling_interval" = true
  ∧ Config.get c section "polling_interval" ≠ ret "999999".

Definition total (t : Tally) : nat :=
  (updated_count t + error_count t + skipped_count t)%nat.

(** ** Sample data *)

Module Sample.

Definition tower : string := "rest://Tower".
Definition annex : string := "rest://Annex".

Definition tower_options : gmap string string :=
  {[ "endpoint" := metrics_url "12345" 2023 7;
     "polling_interval" := "60";
     "auth_user" := "viewer";
     "auth_password" := "secret" ]}.

(** A section with an endpoint and an interval but no credentials. *)
Definition annex_options : gmap string string :=
  {[ "endpoint" := metrics_url "777" 2023 7;
     "polling_interval" := "60" ]}.

Definition one_section : Config.t :=
  Config.mk [tower] ∅ {[ tower := tower_options ]}.

Definition no_credentials : Config.t :=
  Config.mk [annex] ∅ {[ annex := annex_options ]}.

Definition on_disk (c : Config.t) : World :=
  {| disk := Conf c; requests := []; writes := 0 |}.

(** Every request comes back empty, every write goes through. *)
Definition quiet (y m : Z) : Env :=
  {| http := λ _, ScoreText ""; file_write := λ _, WriteOk;
     current_year := y; current_month := m |}.

(** Two empty months, then a score of 75. *)
Definition third_time (y m : Z) : Env :=
  {| http := λ n, match n with 2%nat => ScoreText "75" | _ => ScoreText "" end;
     file_write := λ _, WriteOk;
     current_year := y; current_month := m |}.

(** The tower with polling switched off already. *)
Definition switched_off : Config.t :=
  Config.mk [tower] ∅ {[ tower := <["polling_interval" := "999999"]> tower_options ]}.

(** A score at the first request and nothing after it, while every
    attempt to rewrite the file raises and leaves [c] there. *)
Definition read_only (c : Config.t) (y m : Z) : Env :=
  {| http := λ n, match n with 0%nat => ScoreText "75" | _ => ScoreText "" end;
     file_write := λ _, WriteRaises (Conf c);
     current_year := y; current_month := m |}.

End Sample.

(** ** The updater nothing calls *)

(** [update_endpoint], lines 60-70: set the endpoint, rewrite the file, and
    on any exception log it and raise it again. *)
Definition update_endpoint (env : Env) (config : Config.t)
    (section new_endpoint : string) (w : World) : res unit * Config.t * World :=
  match Config.set config section "endpoint" new_endpoint with
  | inl e => (raise e, config, w)
  | inr c1 => let '(r, w') := write_config env c1 w in (r, c1, w')
  end.

(** ** Vocabulary of the further properties *)

(** Months the search may still ask for, the current one included. *)
Definition months_left (max_years_to_check : Z) (s : SearchState) : Z :=
  month s + 12 * (max_years_to_check - years_checked s).

(** [c'] differs from [c] at most in [endpoint] and [polling_interval] of
    [section], and its endpoint there is the old one or a metrics URL of
    [property_id]. *)
Definition only_endpoint_changed (section property_id : string)
    (c c' : Config.t) : Prop :=
  Config.sections c' = Config.sections c
  ∧ (∀ s, Config.has_section c' s = Config.has_section c s)
  ∧ (∀ s o, s ≠ section ∨ (o ≠ "endpoint" ∧ o ≠ "polling_interval") →
            Config.get c' s o = Config.get c s o)
  ∧ (∀ s o, s ≠ section ∨ (o ≠ "endpoint" ∧ o ≠ "polling_interval") →
            Config.has_option c' s o = Config.has_option c s o)
  ∧ (∀ o, Config.has_option c section o = true →
          Config.has_option c' section o = true)
  ∧ (Config.get c' section "endpoint" = Config.get c section "endpoint"
     ∨ ∃ y m, Config.get c' section "endpoint" = ret (metrics_url property_id y m)).

(** [c] with the endpoint and the final interval of lines 128-129 in the
    options [d] of [section]. *)
Definition rewritten (c : Config.t) (section : string) (d : gmap string string)
    (new_endpoint : string) : Config.t :=
  Config.mk (Config.order c) (Config.defaults c)
    (<[section := <["polling_interval" := "0 0 5 31 2 ?"]>
                    (<["endpoint" := new_endpoint]> d)]> (Config.sects c)).

(** The test of lines 227-243: the main pass counts the section as Skipped
    without searching. *)
Definition skips (c : Config.t) (section : string) : bool :=
  String.eqb section sentinel
  || negb (Config.has_option c section "endpoint")
  || match Config.get c section "endpoint" with
     | inl _ => false
     | inr endpoint =>
         match extract_property_id endpoint with
         | None | Some EmptyString => true
         | Some _ => false
         end
     end.

(** [c'] has the sections of [c], and differs from it at most in
    [endpoint] and [polling_interval] of sections other than the sentinel. *)
Definition keeps_the_rest (c c' : Config.t) : Prop :=
  Config.sections c' = Config.sections c
  ∧ (∀ s, Config.has_section c' s = Config.has_section c s)
  ∧ (∀ s o, o ≠ "endpoint" → o ≠ "polling_interval" →
            Config.get c' s o = Config.get c s o)
  ∧ (∀ o, Config.get c' sentinel o = Config.get c sentinel o).

(** Polling is off in [c]: every section of [secs] other than the sentinel
    that has an interval has one of the two values the script writes. *)
Definition polling_off (secs : list string) (c : Config.t) : Prop :=
  ∀ s, s ∈ secs → s ≠ sentinel →
       Config.has_option c s "polling_interval" = true →
       Config.get c s "polling_interval" = ret "999999"
       ∨ Config.get c s "polling_interval" = ret "0 0 5 31 2 ?".

Module Scenario.

Definition lobby : string := "rest://Lobby".

(** Credentials and interval come from the default section. *)
Definition shared_defaults : gmap string string :=
  {[ "auth_user" := "viewer"; "auth_password" := "secret";
     "polling_interval" := "300" ]}.

Definition lobby_options : gmap string string :=
  {[ "endpoint" := metrics_url "42" 2022 1 ]}.

(** The sentinel, a section without endpoint, one whose endpoint holds no
    property id, and two ordinary ones. *)
Definition campus : Config.t :=
  Config.mk [sentinel; "rest://Empty"; "rest://Other"; Sample.tower; lobby]
    shared_defaults
    {[ sentinel := {[ "endpoint" := "https://weather.example/now";
                      "polling_interval" := "60" ]};
       "rest://Empty" := ∅;
       "rest://Other" := {[ "endpoint" := "https://host/ws/building/9/metrics" ]};
       Sample.tower := Sample.tower_options;
       lobby := lobby_options ]}.

(** [campus] once the pre-pass has gone over it. *)
Definition campus_off : Config.t :=
  match disable_polling (Config.sections campus) campus false with
  | inr (c', _) => c'
  | inl _ => campus
  end.

(** A score at every request; the first attempt to write raises and leaves
    [c] in the file, the later ones go through. *)
Definition flaky_disk (c : Config.t) (y m : Z) : Env :=
  {| http := λ _, ScoreText "88";
     file_write := λ n, match n with 0%nat => WriteRaises (Conf c) | _ => WriteOk end;
     current_year := y; current_month := m |}.

(** A score at every request, every write goes through. *)
Definition generous (y m : Z) : Env :=
  {| http := λ _, ScoreText "88"; file_write := λ _, WriteOk;
     current_year := y; current_month := m |}.

End Scenario.


(** * Properties *)

(** ** Property-id extraction *)

Section Extraction.

Lemma str_app_nil (s : string) : "" ++ s = s.
Proof. reflexivity. Qed.

Lemma str_app_cons (a : ascii) (s t : string) :
  String a s ++ t = String a (s ++ t).
Proof. reflexivity. Qed.

Lemma str_app_assoc (a b c : string) : (a ++ b) ++ c = a ++ (b ++ c).
Proof.
  induction a as [|x a IH]; [done |].
  by rewrite !str_app_cons, IH.
Qed.

Lemma strip_prefix_app (p s : string) : strip_prefix p (p ++ s) = Some s.
Proof.
  induction p as [|a p IH]; [done |].
  rewrite str_app_cons. simpl. by rewrite Ascii.eqb_refl.
Qed.

Lemma strip_prefix_Some (p s r : string) :
  strip_prefix p s = Some r → s = p ++ r.
Proof.
  revert s. induction p as [|a p IH]; intros s; simpl.
  - by intros [= ->].
  - destruct s as [|b s]; [done |].
    destruct (Ascii.eqb a b) eqn:E; [| done].
    apply Ascii.eqb_eq in E as ->. intros H.
    by rewrite (IH _ H), str_app_cons.
Qed.

Lemma span_digits_spec (s ds rest : string) :
  span_digits s = (ds, rest) → s = ds ++ rest ∧ all_digits ds = true.
Proof.
  revert ds rest. induction s as [|a s IH]; intros ds rest; simpl.
  - by intros [= <- <-].
  - destruct (is_digit a) eqn:E.
    + destruct (span_digits s) as [ds' rest'] eqn:Es.
      intros [= <- <-]. destruct (IH _ _ eq_refl) as [-> Hd].
      rewrite str_app_cons. simpl. by rewrite E, Hd.
    + by intros [= <- <-].
Qed.

(** A run of digits followed by something that is not a digit is split
    exactly there. *)
Lemma span_digits_app (ds rest : string) :
  all_digits ds = true →
  (∀ a r, rest = String a r → is_digit a = false) →
  span_digits (ds ++ rest) = (ds, rest).
Proof.
  intros Hd Hr. induction ds as [|a ds IH].
  - rewrite str_app_nil.
    destruct rest as [|a r]; [done |]. simpl. by rewrite (Hr a r eq_refl).
  - simpl in Hd. apply andb_true_iff in Hd as [Ha Hd].
    rewrite str_app_cons. simpl. by rewrite Ha, (IH Hd).
Qed.

Lemma match_here_Some (s ds : string) :
  match_here s = Some ds →
  ∃ after, s = "/property/" ++ ds ++ "/metrics" ++ after
           ∧ ds ≠ "" ∧ all_digits ds = true.
Proof.
  unfold match_here.
  destruct (strip_prefix "/property/" s) as [s1|] eqn:E1; [| done].
  destruct (span_digits s1) as [d s2] eqn:E2.
  destruct d as [|a d]; [done |].
  destruct (strip_prefix "/metrics" s2) as [s3|] eqn:E3; [| done].
  intros [= <-].
  apply strip_prefix_Some in E1, E3.
  apply span_digits_spec in E2 as [E2 Hd].
  exists s3. subst. done.
Qed.

Lemma match_here_pattern (ds after : string) :
  ds ≠ "" → all_digits ds = true →
  match_here ("/property/" ++ ds ++ "/metrics" ++ after) = Some ds.
Proof.
  intros Hne Hd. unfold match_here.
  rewrite strip_prefix_app.
  rewrite (span_digits_app ds ("/metrics" ++ after) Hd).
  - destruct ds as [|a ds]; [done |].
    by rewrite strip_prefix_app.
  - intros a r. change ("/metrics" ++ after) with (String "/" ("metrics" ++ after)).
    by intros [= <- _].
Qed.

Lemma re_search_eq (s : string) :
  re_search s =
  match match_here s with
  | Some ds => Some ds
  | None => match s with String _ s' => re_search s' | EmptyString => None end
  end.
Proof. by destruct s. Qed.

Lemma re_search_app (before s : string) :
  is_Some (match_here s) → is_Some (re_search (before ++ s)).
Proof.
  intros [ds Hs]. induction before as [|a before IH].
  - rewrite str_app_nil, re_search_eq, Hs. eauto.
  - rewrite str_app_cons, re_search_eq.
    destruct (match_here (String a (before ++ s))); eauto.
Qed.

Lemma re_search_Some (s ds : string) :
  re_search s = Some ds →
  ∃ before s', s = before ++ s' ∧ match_here s' = Some ds.
Proof.
  induction s as [|a s IH]; rewrite re_search_eq.
  - destruct (match_here "") eqn:E; [| done].
    intros [= <-]. by exists "", "".
  - destruct (match_here (String a s)) eqn:E.
    + intros [= <-]. by exists "", (String a s).
    + intros H. destruct (IH H) as (before & s' & -> & Hm).
      by exists (String a before), s'.
Qed.

Lemma extract_property_id_Some (url ds : string) :
  extract_property_id url = Some ds →
  ds ≠ "" ∧ all_digits ds = true
  ∧ ∃ before after, url = before ++ "/property/" ++ ds ++ "/metrics" ++ after.
Proof.
  intros H. apply re_search_Some in H as (before & s' & -> & Hm).
  apply match_here_Some in Hm as (after & -> & Hne & Hd).
  repeat split; [done .. |]. by exists before, after.
Qed.

Lemma extract_property_id_pattern (url : string) :
  has_property_pattern url → is_Some (extract_property_id url).
Proof.
  intros (before & ds & after & -> & Hne & Hd).
  apply re_search_app. rewrite match_here_pattern by done. eauto.
Qed.

Lemma extract_property_id_None (url : string) :
  extract_property_id url = None ↔ ¬ has_property_pattern url.
Proof.
  split.
  - intros H Hp. apply extract_property_id_pattern in Hp as [ds Hp]. congruence.
  - intros Hn. destruct (extract_property_id url) as [ds|] eqn:E; [| done].
    exfalso. apply Hn. apply extract_property_id_Some in E as (Hne & Hd & b & a & ->).
    by exists b, ds, a.
Qed.

End Extraction.

(** C9: extraction returns the id [12345] on the sample URL, and returns
    nothing for every URL in ASCII that does not contain
    [/property/{digits}/metrics]. *)
Theorem extract_property_id_correct :
  extract_property_id "https://host/ws/property/12345/metrics?year=2024&month=1"
  = Some "12345"
  ∧ ∀ url, ascii_only url = true →
           ¬ has_property_pattern url → extract_property_id url = None.
Proof.
  split; [reflexivity |].
  intros url _. apply extract_property_id_None.
Qed.

Lemma extract_property_id_correct_witness :
  ¬ has_property_pattern "https://host/ws/weather/metrics"
  ∧ extract_property_id "https://host/ws/weather/metrics" = None.
Proof.
  assert (N : ¬ has_property_pattern "https://host/ws/weather/metrics").
  { intros H. apply extract_property_id_pattern in H as [ds H].
    vm_compute in H. discriminate. }
  split; [exact N |].
  exact (proj2 extract_property_id_correct "https://host/ws/weather/metrics"
           eq_refl N).
Defined.

(** ** The config object *)

Section ConfigFacts.

Implicit Types (c : Config.t) (s o v : string).

Lemma has_option_get c s o :
  Config.has_option c s o = true → ∃ v, Config.get c s o = ret v.
Proof.
  unfold Config.has_option, Config.get.
  destruct (Config.sects c !! s) as [d|]; [| done].
  destruct (d !! o) as [v|]; [eauto |].
  destruct (Config.defaults c !! o) as [v|]; [eauto |].
  intros H. apply orb_true_iff in H as [H|H];
    apply bool_decide_eq_true in H as [? ?]; done.
Qed.

Lemma get_has_option c s o v :
  Config.get c s o = ret v → Config.has_option c s o = true.
Proof.
  unfold Config.has_option, Config.get.
  destruct (Config.sects c !! s) as [d|]; [| done].
  destruct (d !! o) as [x|]; [by rewrite bool_decide_eq_true_2 by eauto |].
  destruct (Config.defaults c !! o) as [x|]; [| done].
  intros _. rewrite orb_true_iff. right. by rewrite bool_decide_eq_true_2 by eauto.
Qed.

Lemma has_option_set c s o :
  Config.has_option c s o = true → ∀ o' v, ∃ c', Config.set c s o' v = ret c'.
Proof.
  unfold Config.has_option, Config.set. intros H o' v.
  destruct (Config.sects c !! s); [eauto | done].
Qed.

Lemma set_Some c s o v c' :
  Config.set c s o v = ret c' → is_Some (Config.sects c !! s).
Proof. unfold Config.set. destruct (Config.sects c !! s); [eauto | done]. Qed.

Lemma set_order c s o v c' :
  Config.set c s o v = ret c' → Config.order c' = Config.order c.
Proof.
  unfold Config.set. destruct (Config.sects c !! s); [| done].
  by intros [= <-].
Qed.

Lemma get_set_eq c s o v c' :
  Config.set c s o v = ret c' → Config.get c' s o = ret v.
Proof.
  unfold Config.set, Config.get.
  destruct (Config.sects c !! s) as [d|]; [| done].
  intros [= <-]. simpl. by rewrite !lookup_insert_eq.
Qed.

(** Writing option [o] of section [s] leaves every other lookup alone. *)
Lemma get_set_ne c s o v c' s' o' :
  Config.set c s o v = ret c' → (s' ≠ s ∨ o' ≠ o) →
  Config.get c' s' o' = Config.get c s' o'.
Proof.
  unfold Config.set, Config.get.
  destruct (Config.sects c !! s) as [d|] eqn:E; [| done].
  intros [= <-] Hne. simpl.
  destruct (decide (s' = s)) as [->|Hs].
  - rewrite lookup_insert_eq, E.
    destruct Hne as [|Ho]; [done |]. by rewrite lookup_insert_ne.
  - by rewrite lookup_insert_ne.
Qed.

Lemma has_option_set_eq c s o v c' s' o' :
  Config.set c s o v = ret c' → Config.has_option c s o = true →
  Config.has_option c' s' o' = Config.has_option c s' o'.
Proof.
  unfold Config.set, Config.has_option.
  destruct (Config.sects c !! s) as [d|] eqn:E; [| done].
  intros [= <-] Ho. simpl.
  destruct (decide (s' = s)) as [->|Hs].
  - rewrite lookup_insert_eq, E.
    destruct (decide (o' = o)) as [->|Hne].
    + rewrite lookup_insert_eq. rewrite Ho.
      by rewrite (bool_decide_eq_true_2 (is_Some (Some v))) by eauto.
    + by rewrite lookup_insert_ne.
  - by rewrite lookup_insert_ne.
Qed.

(** In this model [get_credentials_from_config] never raises: the only
    exception [config.get] has left after [has_section] is the one caught. *)
Lemma get_credentials_total c s :
  ∃ r, get_credentials_from_config c s = ret r.
Proof.
  unfold get_credentials_from_config, Config.has_section, Config.get.
  destruct (Config.sects c !! s) as [d|].
  - rewrite bool_decide_eq_true_2 by eauto. simpl.
    destruct (d !! "auth_user"); [| destruct (Config.defaults c !! "auth_user")];
      (destruct (d !! "auth_password");
       [| destruct (Config.defaults c !! "auth_password")]); eauto.
  - rewrite bool_decide_eq_false_2 by (by intros [? ?]). simpl. eauto.
Qed.

Lemma get_credentials_Some c s u :
  get_credentials_from_config c s = ret (Some u) →
  is_Some (Config.sects c !! s).
Proof.
  unfold get_credentials_from_config, Config.has_section.
  destruct (Config.sects c !! s) as [d|]; [eauto |].
  by rewrite bool_decide_eq_false_2 by (by intros [? ?]).
Qed.

End ConfigFacts.

(** ** The backward search *)

Lemma while_loop_eq fuel env property_id section_name max s config w :
  while_loop fuel env property_id section_name max s config w =
  if years_checked s <=? max then
    match iteration env property_id section_name max s config w with
    | (inl e, c, w') => Some (raise e, c, w')
    | (inr (Return r), c, w') => Some (ret r, c, w')
    | (inr (Continue s'), c, w') =>
        match fuel with
        | O => None
        | S fuel' => while_loop fuel' env property_id section_name max s' c w'
        end
    end
  else Some (ret not_found, config, w).
Proof. by destruct fuel. Qed.

Lemma fetched_refl w : fetched 0 w w.
Proof. unfold fetched. repeat split; lia. Qed.

Lemma fetched_trans j k w1 w2 w3 :
  fetched j w1 w2 → fetched k w2 w3 → fetched (j + k) w1 w3.
Proof.
  unfold fetched. intros (-> & -> & H1) (-> & -> & H2).
  repeat split; lia.
Qed.

Lemma fetched_http_get env url w : fetched 1 w (http_get env url w).2.
Proof.
  unfold fetched, http_get. simpl. repeat split.
  rewrite length_app. simpl. lia.
Qed.

Lemma get_score_without_credentials fuel env property_id y m section_name
    config max w :
  get_credentials_from_config config section_name = ret None →
  get_score fuel env property_id y m section_name config max w
  = Some (ret not_found, config, w).
Proof.
  intros Hc. unfold get_score.
  destruct (String.eqb section_name sentinel); [done |].
  rewrite while_loop_eq. unfold iteration. rewrite Hc.
  by destruct (_ <=? _).
Qed.

(** C6: when the credentials of a section resolve to nothing, [get_score]
    returns the failure tuple, and the world is the one it started from: no
    request was issued. *)
Theorem missing_credentials_no_request fuel env property_id y m section_name
    config max w :
  get_credentials_from_config config section_name = ret None →
  get_score fuel env property_id y m section_name config max w
  = Some (ret not_found, config, w).
Proof. apply get_score_without_credentials. Qed.

Lemma missing_credentials_no_request_witness :
  get_credentials_from_config Sample.no_credentials Sample.annex = ret None
  ∧ get_score 0 (Sample.third_time 2024 3) "777" 2024 3 Sample.annex
      Sample.no_credentials 1 (Sample.on_disk Sample.no_credentials)
    = Some (ret not_found, Sample.no_credentials,
            Sample.on_disk Sample.no_credentials).
Proof.
  split; [reflexivity |].
  apply (missing_credentials_no_request 0 (Sample.third_time 2024 3) "777" 2024 3
           Sample.annex Sample.no_credentials 1
           (Sample.on_disk Sample.no_credentials)).
  reflexivity.
Defined.

(** The update of lines 125-133 when the file can be written. *)
Lemma write_found_ok env section_name new_endpoint config w :
  is_Some (Config.sects config !! section_name) →
  file_write env (writes w) = WriteOk →
  ∃ c', write_found env section_name new_endpoint config w
        = (ret tt, c',
           {| disk := Conf c'; requests := requests w; writes := S (writes w) |})
    ∧ Config.get c' section_name "endpoint" = ret new_endpoint
    ∧ Config.get c' section_name "polling_interval" = ret "0 0 5 31 2 ?".
Proof.
  intros [d Hd] Hw. unfold write_found, Config.set, write_config.
  rewrite Hd. simpl. rewrite lookup_insert_eq. simpl.
  rewrite lookup_insert_eq. simpl. rewrite Hw.
  eexists. split; [reflexivity |].
  unfold Config.get. simpl. rewrite !lookup_insert_eq.
  split; [| done].
  by rewrite lookup_insert_ne, lookup_insert_eq.
Qed.

Section Miss.

Context (env : Env) (property_id section_name : string) (max : Z)
        (config : Config.t) (credentials : string * string).
Hypothesis Hcred :
  get_credentials_from_config config section_name = ret (Some credentials).

(** An iteration whose request brings no score steps one month back and
    touches neither the config nor the file. *)
Lemma iteration_miss s w :
  is_miss (http env (length (requests w))) = true →
  iteration env property_id section_name max s config w
  = (ret (try_previous_month max s), config,
     (http_get env (metrics_url property_id (year s) (month s)) w).2).
Proof.
  intros Hm. unfold iteration. rewrite Hcred. simpl.
  destruct (http env (length (requests w))) as [| |[|a t]]; done.
Qed.

(** Such an iteration goes back to the loop head while the step stays
    within the years to check. *)
Lemma while_loop_miss fuel s w :
  is_miss (http env (length (requests w))) = true →
  years_checked s <= max → years_checked (previous_month s) <= max →
  while_loop (S fuel) env property_id section_name max s config w
  = while_loop fuel env property_id section_name max (previous_month s) config
      (http_get env (metrics_url property_id (year s) (month s)) w).2.
Proof.
  intros Hm Hy Hy'. rewrite while_loop_eq, iteration_miss by done.
  rewrite (proj2 (Z.leb_le _ _) Hy). unfold try_previous_month.
  destruct (years_checked (previous_month s) >? max) eqn:E; [lia | done].
Qed.

(** An iteration that finds a score and can write the file returns. *)
Lemma while_loop_found fuel s w a t :
  http env (length (requests w)) = ScoreText (String a t) →
  years_checked s <= max →
  file_write env (writes w) = WriteOk →
  ∃ c',
    while_loop fuel env property_id section_name max s config w
    = Some (ret (true, Some (year s), Some (month s)), c',
            {| disk := Conf c';
               requests := (requests w ++ [metrics_url property_id (year s) (month s)])%list;
               writes := S (writes w) |})
    ∧ Config.get c' section_name "endpoint"
      = ret (metrics_url property_id (year s) (month s))
    ∧ Config.get c' section_name "polling_interval" = ret "0 0 5 31 2 ?".
Proof.
  intros Hh Hy Hw.
  destruct (write_found_ok env section_name
              (metrics_url property_id (year s) (month s)) config
              (http_get env (metrics_url property_id (year s) (month s)) w).2)
    as (c' & Hf & He & Hp); [by eapply get_credentials_Some | done |].
  exists c'. split; [| done].
  rewrite while_loop_eq, (proj2 (Z.leb_le _ _) Hy).
  unfold iteration. rewrite Hcred.
  unfold http_get at 1. rewrite Hh.
  unfold http_get in Hf. cbn [snd] in Hf. by rewrite Hf.
Qed.

Hypothesis Hmiss : no_data env.

(** From month [k+1] down to January: [k+1] requests, then the year
    wraps. *)
Lemma countdown (k fuel : nat) s w :
  month s = Z.of_nat (S k) → years_checked s <= max →
  ∃ w', fetched (S k) w w'
    ∧ while_loop (k + fuel) env property_id section_name max s config w
      = if years_checked s + 1 >? max then Some (ret not_found, config, w')
        else match fuel with
             | O => None
             | S fuel' =>
                 while_loop fuel' env property_id section_name max
                   {| year := year s - 1; month := 12;
                      years_checked := years_checked s + 1 |} config w'
             end.
Proof.
  revert s w. induction k as [|k IH]; intros s w Hm Hy.
  - exists (http_get env (metrics_url property_id (year s) (month s)) w).2.
    split; [apply fetched_http_get |].
    rewrite while_loop_eq, iteration_miss by apply Hmiss.
    rewrite (proj2 (Z.leb_le _ _) Hy).
    unfold try_previous_month, previous_month. rewrite Hm. simpl.
    by destruct (_ >? _).
  - set (s' := {| year := year s; month := month s - 1;
                  years_checked := years_checked s |}).
    destruct (IH s' (http_get env (metrics_url property_id (year s) (month s)) w).2)
      as (w' & Hf & Hw); [simpl; lia | done |].
    exists w'. split.
    + replace (S (S k)) with (1 + S k)%nat by lia.
      eapply fetched_trans; [apply fetched_http_get | done].
    + rewrite while_loop_eq, iteration_miss by apply Hmiss.
      rewrite (proj2 (Z.leb_le _ _) Hy).
      unfold try_previous_month, previous_month.
      rewrite (proj2 (Z.eqb_neq (month s) 1)) by lia.
      fold s'. simpl years_checked.
      destruct (years_checked s >? max) eqn:E; [lia |].
      simpl. exact Hw.
Qed.

(** With no score anywhere the search walks through the rest of this
    year and twelve months for each further year it may check. *)
Lemma search_exhausts (n : nat) s w fuel :
  1 <= month s <= 12 → max - years_checked s = Z.of_nat n →
  (Z.to_nat (month s) + 12 * n - 1 ≤ fuel)%nat →
  ∃ w', fetched (Z.to_nat (month s) + 12 * n) w w'
    ∧ while_loop fuel env property_id section_name max s config w
      = Some (ret not_found, config, w').
Proof.
  revert s w fuel. induction n as [|n IH]; intros s w fuel Hm Hy Hfuel.
  - destruct (countdown (Z.to_nat (month s) - 1) (fuel - (Z.to_nat (month s) - 1)) s w)
      as (w' & Hf & Hw); [lia .. |].
    replace (Z.to_nat (month s) - 1 + (fuel - (Z.to_nat (month s) - 1)))%nat
      with fuel in Hw by lia.
    rewrite (proj2 (Z.gtb_gt _ _)) in Hw by lia.
    exists w'. split; [| done].
    by replace (Z.to_nat (month s) + 12 * 0)%nat
      with (S (Z.to_nat (month s) - 1)) by lia.
  - destruct (countdown (Z.to_nat (month s) - 1) (fuel - (Z.to_nat (month s) - 1)) s w)
      as (w1 & Hf & Hw); [lia .. |].
    replace (Z.to_nat (month s) - 1 + (fuel - (Z.to_nat (month s) - 1)))%nat
      with fuel in Hw by lia.
    destruct (years_checked s + 1 >? max) eqn:E; [lia |].
    destruct (fuel - (Z.to_nat (month s) - 1))%nat as [|fuel'] eqn:Ef; [lia |].
    destruct (IH {| year := year s - 1; month := 12;
                    years_checked := years_checked s + 1 |} w1 fuel')
      as (w' & Hf' & Hw'); [simpl; lia .. |].
    exists w'. split; [| by rewrite Hw].
    replace (Z.to_nat (month s) + 12 * S n)%nat
      with (S (Z.to_nat (month s) - 1) + (Z.to_nat 12 + 12 * n))%nat by lia.
    by eapply fetched_trans.
Qed.

End Miss.

(** Without data [get_score] always comes back empty-handed, and it leaves
    the config and the file as they were. *)
Lemma get_score_no_data fuel env property_id y m section_name config w :
  1 <= m <= 12 → no_data env → (Z.to_nat m + 11 ≤ fuel)%nat →
  ∃ w', get_score fuel env property_id y m section_name config 1 w
        = Some (ret not_found, config, w')
    ∧ disk w' = disk w ∧ writes w' = writes w
    ∧ (length (requests w') ≤ length (requests w) + Z.to_nat m + 12)%nat
    ∧ (∀ credentials,
         section_name ≠ sentinel →
         get_credentials_from_config config section_name = ret (Some credentials) →
         length (requests w') = (length (requests w) + Z.to_nat m + 12)%nat).
Proof.
  intros Hm Hmiss Hfuel.
  destruct (get_credentials_total config section_name) as [[credentials|] Hc].
  - unfold get_score. destruct (String.eqb_spec section_name sentinel) as [->|Hne].
    + exists w. repeat split; [lia |]. by intros ? ?.
    + destruct (search_exhausts env property_id section_name 1 config credentials
                  Hc Hmiss 1 {| year := y; month := m; years_checked := 0 |} w fuel)
        as (w' & (Hd & Hw & Hl) & Hr); [simpl; lia .. |].
      simpl in Hl. exists w'. repeat split; [done .. | lia |].
      intros _ _ _. lia.
  - exists w. rewrite get_score_without_credentials by done.
    repeat split; [lia |]. intros ? _ H. rewrite Hc in H. discriminate H.
Qed.

(** C1, as the code has it: with [max_years_to_check = 1], a start month
    between 1 and 12, no score in any answer and a credentials lookup that
    returns, [get_score] returns the failure tuple after at most
    [month + 12] requests, so after at most 24; the count is exactly
    [month + 12] when the section is not the sentinel and has credentials. *)
Theorem backward_search_bound fuel env property_id y m section_name config w
    lookup :
  1 <= m <= 12 → no_data env → (Z.to_nat m + 11 ≤ fuel)%nat →
  get_credentials_from_config config section_name = ret lookup →
  ∃ w', get_score fuel env property_id y m section_name config 1 w
        = Some (ret not_found, config, w')
    ∧ (length (requests w') ≤ length (requests w) + Z.to_nat m + 12)%nat
    ∧ (length (requests w') ≤ length (requests w) + 24)%nat
    ∧ (∀ credentials,
         section_name ≠ sentinel →
         get_credentials_from_config config section_name = ret (Some credentials) →
         length (requests w') = (length (requests w) + Z.to_nat m + 12)%nat).
Proof.
  intros Hm Hmiss Hfuel _.
  destruct (get_score_no_data fuel env property_id y m section_name config w
              Hm Hmiss Hfuel) as (w' & Hr & _ & _ & Hl & Hx).
  exists w'. repeat split; [done | done | lia | done].
Qed.

Lemma backward_search_bound_witness :
  ∃ w', get_score 14 (Sample.quiet 2024 3) "12345" 2024 3 Sample.tower
          Sample.one_section 1 (Sample.on_disk Sample.one_section)
        = Some (ret not_found, Sample.one_section, w')
    ∧ length (requests w') = 15%nat.
Proof.
  destruct (backward_search_bound 14 (Sample.quiet 2024 3) "12345" 2024 3
              Sample.tower Sample.one_section (Sample.on_disk Sample.one_section)
              (Some ("viewer", "secret")))
    as (w' & Hr & _ & _ & Hx).
  - lia.
  - intros n. reflexivity.
  - simpl. lia.
  - reflexivity.
  - exists w'. split; [exact Hr |].
    apply (Hx ("viewer", "secret")); [discriminate | reflexivity].
Defined.

(** C1, as the spec words it, fails: started in March with credentials in
    place and every answer empty, the search issues 15 requests, more than
    13, before it gives up. *)
Lemma thirteen_attempts_exceeded :
  ∃ w', get_score 30 (Sample.quiet 2024 3) "12345" 2024 3 Sample.tower
          Sample.one_section 1 (Sample.on_disk Sample.one_section)
        = Some (ret not_found, Sample.one_section, w')
    ∧ length (requests w') = 15%nat
    ∧ ¬ (length (requests w') ≤ 13)%nat.
Proof.
  eexists. split; [vm_compute; reflexivity |].
  split; [reflexivity | simpl; lia].
Qed.

(** C5: an iteration whose answer is empty or an error leaves through
    [previous_month]: the month goes down by one, and from January the
    state wraps to December of the year before with [years_checked] one
    higher; so (2024, 1) steps to (2023, 12). *)
Theorem miss_steps_back env property_id section_name max config credentials s w :
  get_credentials_from_config config section_name = ret (Some credentials) →
  is_miss (http env (length (requests w))) = true →
  (iteration env property_id section_name max s config w).1.1
  = ret (if years_checked (previous_month s) >? max
         then Return not_found else Continue (previous_month s))
  ∧ (month s = 1 →
     previous_month s
     = {| year := year s - 1; month := 12; years_checked := years_checked s + 1 |})
  ∧ (month s ≠ 1 →
     previous_month s
     = {| year := year s; month := month s - 1; years_checked := years_checked s |})
  ∧ previous_month {| year := 2024; month := 1; years_checked := years_checked s |}
    = {| year := 2023; month := 12; years_checked := years_checked s + 1 |}.
Proof.
  intros Hc Hm. split; [| split; [| split]].
  - by rewrite (iteration_miss env property_id section_name max config credentials Hc).
  - intros H. unfold previous_month. by rewrite H.
  - intros H. unfold previous_month. by rewrite (proj2 (Z.eqb_neq _ _) H).
  - reflexivity.
Qed.

Lemma miss_steps_back_witness :
  (iteration (Sample.quiet 2024 1) "12345" Sample.tower 1
     {| year := 2024; month := 1; years_checked := 0 |}
     Sample.one_section (Sample.on_disk Sample.one_section)).1.1
  = ret (Continue {| year := 2023; month := 12; years_checked := 1 |}).
Proof.
  exact (proj1 (miss_steps_back (Sample.quiet 2024 1) "12345" Sample.tower 1
                  Sample.one_section ("viewer", "secret")
                  {| year := 2024; month := 1; years_checked := 0 |}
                  (Sample.on_disk Sample.one_section) eq_refl eq_refl)).
Defined.

(** C4: started at (2024, 3) with two empty answers and then the score 75,
    [get_score] returns success with (2024, 1) after exactly three
    requests, for March, February and January, and the endpoint it wrote
    for the section, in memory and in the file, contains
    [year=2024&month=1]. *)
Theorem found_at_third_attempt fuel env property_id section_name config credentials w :
  section_name ≠ sentinel →
  get_credentials_from_config config section_name = ret (Some credentials) →
  http env (length (requests w)) = ScoreText "" →
  http env (S (length (requests w))) = ScoreText "" →
  http env (S (S (length (requests w)))) = ScoreText "75" →
  file_write env (writes w) = WriteOk →
  (2 ≤ fuel)%nat →
  ∃ config' w',
    get_score fuel env property_id 2024 3 section_name config 1 w
    = Some (ret (true, Some 2024, Some 1), config', w')
    ∧ requests w'
      = (requests w ++ [metrics_url property_id 2024 3;
                         metrics_url property_id 2024 2;
                         metrics_url property_id 2024 1])%list
    ∧ disk w' = Conf config'
    ∧ Config.get config' section_name "endpoint" = ret (metrics_url property_id 2024 1)
    ∧ contains "year=2024&month=1" (metrics_url property_id 2024 1).
Proof.
  intros Hne Hc H1 H2 H3 Hw Hfuel.
  destruct fuel as [|[|fuel]]; [lia | lia |].
  set (w1 := (http_get env (metrics_url property_id 2024 3) w).2).
  set (w2 := (http_get env (metrics_url property_id 2024 2) w1).2).
  assert (L1 : length (requests w1) = S (length (requests w))).
  { unfold w1, http_get. cbn [snd requests]. rewrite length_app. simpl. lia. }
  assert (L2 : length (requests w2) = S (S (length (requests w)))).
  { unfold w2, http_get. cbn [snd requests]. rewrite length_app, L1. simpl. lia. }
  destruct (while_loop_found env property_id section_name 1 config credentials Hc
              fuel {| year := 2024; month := 1; years_checked := 0 |} w2 "7" "5")
    as (c' & Hr & He & _); [by rewrite L2 | simpl; lia | done |].
  cbn [year month] in Hr, He.
  exists c', {| disk := Conf c';
                requests := (requests w2 ++ [metrics_url property_id 2024 1])%list;
                writes := S (writes w2) |}.
  split; [| split; [| split; [reflexivity | split; [exact He |]]]].
  - unfold get_score. rewrite (proj2 (String.eqb_neq _ _) Hne).
    rewrite (while_loop_miss env property_id section_name 1 config credentials Hc);
      [| by rewrite H1 | simpl; lia | simpl; lia].
    change (previous_month {| year := 2024; month := 3; years_checked := 0 |})
      with {| year := 2024; month := 2; years_checked := 0 |}.
    cbn [year month]. fold w1.
    rewrite (while_loop_miss env property_id section_name 1 config credentials Hc);
      [| by rewrite L1, H2 | simpl; lia | simpl; lia].
    change (previous_month {| year := 2024; month := 2; years_checked := 0 |})
      with {| year := 2024; month := 1; years_checked := 0 |}.
    cbn [year month]. fold w2. exact Hr.
  - unfold w2, w1, http_get. cbn [snd requests year month].
    by rewrite <- !app_assoc.
  - exists (base_url ++ property_id ++ "/metrics?"), "".
    unfold metrics_url. rewrite !str_app_assoc. reflexivity.
Qed.

Lemma found_at_third_attempt_witness :
  ∃ config' w',
    get_score 2 (Sample.third_time 2024 3) "12345" 2024 3 Sample.tower
      Sample.one_section 1 (Sample.on_disk Sample.one_section)
    = Some (ret (true, Some 2024, Some 1), config', w')
    ∧ requests w' = [metrics_url "12345" 2024 3; metrics_url "12345" 2024 2;
                     metrics_url "12345" 2024 1]
    ∧ disk w' = Conf config'
    ∧ Config.get config' Sample.tower "endpoint" = ret (metrics_url "12345" 2024 1)
    ∧ contains "year=2024&month=1" (metrics_url "12345" 2024 1).
Proof.
  apply (found_at_third_attempt 2 (Sample.third_time 2024 3) "12345" Sample.tower
           Sample.one_section ("viewer", "secret")
           (Sample.on_disk Sample.one_section)).
  - discriminate.
  - reflexivity.
  - reflexivity.
  - reflexivity.
  - reflexivity.
  - reflexivity.
  - simpl. lia.
Defined.

(** ** The pre-pass *)

Section PrePass.

(** One turn of the loop: the section is passed over, or its interval is
    overwritten and [modified] raised. *)
Lemma disable_polling_cons s rest c m :
  ∃ c1 m1,
    disable_polling (s :: rest) c m = disable_polling rest c1 m1
    ∧ ((c1 = c ∧ m1 = m ∧ polling_left s c)
       ∨ (Config.set c s "polling_interval" "999999" = ret c1 ∧ m1 = true ∧ polling_due s c)).
Proof.
  simpl. destruct (String.eqb_spec s sentinel) as [->|Hne]; simpl.
  { exists c, m. split; [done |]. left. unfold polling_left. auto. }
  destruct (Config.has_option c s "polling_interval") eqn:Ho.
  2:{ exists c, m. split; [done |]. left. unfold polling_left. auto. }
  destruct (has_option_get c s "polling_interval" Ho) as [v Hv]. rewrite Hv.
  simpl. destruct (String.eqb_spec v "999999") as [->|Hv']; simpl.
  { exists c, m. split; [done |]. left. unfold polling_left. auto. }
  destruct (has_option_set c s "polling_interval" Ho "polling_interval" "999999") as [c1 Hc1]. rewrite Hc1.
  exists c1, true. split; [done |]. right.
  split; [done |]. split; [done |]. unfold polling_due.
  split; [done |]. split; [done |]. rewrite Hv. by intros [= ->].
Qed.

Lemma disable_polling_total secs c m :
  ∃ c' m', disable_polling secs c m = ret (c', m').
Proof.
  revert c m. induction secs as [|s rest IH]; intros c m; [by exists c, m |].
  destruct (disable_polling_cons s rest c m) as (c1 & m1 & -> & _). apply IH.
Qed.

(** What the loop never touches, and what it never undoes. *)
Lemma disable_polling_frame secs c m c' m' :
  disable_polling secs c m = ret (c', m') →
  Config.order c' = Config.order c
  ∧ (∀ s o, Config.has_option c' s o = Config.has_option c s o)
  ∧ (∀ s o, o ≠ "polling_interval" → Config.get c' s o = Config.get c s o)
  ∧ (∀ s, Config.get c s "polling_interval" = ret "999999" → Config.get c' s "polling_interval" = ret "999999")
  ∧ (m = true → m' = true)
  ∧ (m' = false → c' = c).
Proof.
  revert c m. induction secs as [|s rest IH]; intros c m.
  - intros [= <- <-]. done.
  - destruct (disable_polling_cons s rest c m)
      as (c1 & m1 & -> & [(-> & -> & _)|(Hs & -> & (_ & Ho & _))]); [apply IH |].
    intros H. destruct (IH _ _ H) as (I1 & I2 & I3 & I4 & I5 & I6).
    split; [by rewrite I1, (set_order _ _ _ _ _ Hs) |].
    split; [intros s' o; by rewrite I2, (has_option_set_eq _ _ _ _ _ s' o Hs Ho) |].
    split; [intros s' o Hne; rewrite I3 by done;
            apply (get_set_ne _ _ _ _ _ s' o Hs); by right |].
    split.
    { intros s' Hg. apply I4. destruct (decide (s' = s)) as [->|Hne].
      - by apply (get_set_eq _ _ _ _ _ Hs).
      - rewrite (get_set_ne _ _ _ _ _ s' "polling_interval" Hs) by (by left). done. }
    split; [intros _; by apply I5 |].
    intros Hm'. rewrite I5 in Hm' by done. discriminate.
Qed.

(** Every section the loop went over ends up switched off. *)
Lemma disable_polling_post secs c m c' m' :
  disable_polling secs c m = ret (c', m') →
  ∀ s, s ∈ secs → s ≠ sentinel → Config.has_option c s "polling_interval" = true →
       Config.get c' s "polling_interval" = ret "999999".
Proof.
  revert c m. induction secs as [|s0 rest IH]; intros c m H s Hin Hne Ho.
  - by apply elem_of_nil in Hin.
  - destruct (disable_polling_cons s0 rest c m) as (c1 & m1 & E & Hstep).
    rewrite E in H.
    destruct (disable_polling_frame _ _ _ _ _ H) as (_ & _ & _ & Hkeep & _).
    apply elem_of_cons in Hin as [->|Hin].
    + apply Hkeep. destruct Hstep as [(-> & _ & [?|[Hf|?]])|(Hs & _)];
        [done | congruence | done |].
      by apply (get_set_eq _ _ _ _ _ Hs).
    + apply (IH _ _ H s Hin Hne).
      destruct Hstep as [(-> & _)|(Hs & _ & (_ & Ho0 & _))]; [done |].
      by rewrite (has_option_set_eq _ _ _ _ _ s "polling_interval" Hs Ho0).
Qed.

(** [modified] is raised exactly when some section was due. *)
Lemma disable_polling_modified secs c m c' m' :
  disable_polling secs c m = ret (c', m') →
  m' = true ↔ m = true ∨ ∃ s, s ∈ secs ∧ polling_due s c.
Proof.
  revert c m. induction secs as [|s0 rest IH]; intros c m H.
  - injection H as <- <-. split; [auto |].
    intros [?|(s & Hin & _)]; [done | by apply elem_of_nil in Hin].
  - destruct (disable_polling_cons s0 rest c m) as (c1 & m1 & E & Hstep).
    rewrite E in H. rewrite (IH _ _ H).
    destruct Hstep as [(-> & -> & Hl)|(Hs & -> & Hd)].
    + split; (intros [?|(s & Hin & Hd)]; [by left | right]; exists s).
      * split; [by apply elem_of_cons; right | done].
      * apply elem_of_cons in Hin as [->|Hin]; [| done].
        exfalso. destruct Hd as (? & ? & ?), Hl as [?|[?|?]]; congruence.
    + split; [| auto]. intros _. right. exists s0.
      split; [apply elem_of_cons; by left | done].
Qed.

(** Nothing is due: the loop changes nothing. *)
Lemma disable_polling_idle secs c m :
  (∀ s, s ∈ secs → polling_left s c) → disable_polling secs c m = ret (c, m).
Proof.
  induction secs as [|s0 rest IH]; intros H; [done |].
  destruct (disable_polling_cons s0 rest c m)
    as (c1 & m1 & -> & [(-> & -> & _)|(_ & _ & Hd)]).
  - apply IH. intros s Hin. apply H, elem_of_cons. by right.
  - exfalso. assert (Hl : polling_left s0 c) by (apply H, elem_of_cons; by left).
    destruct Hd as (? & ? & ?), Hl as [?|[?|?]]; congruence.
Qed.

(** After the loop nothing is due any more. *)
Lemma disable_polling_settled secs c m c' m' :
  disable_polling secs c m = ret (c', m') →
  ∀ s, s ∈ secs → polling_left s c'.
Proof.
  intros H s Hin. unfold polling_left.
  destruct (decide (s = sentinel)) as [|Hne]; [by left | right].
  destruct (Config.has_option c' s "polling_interval") eqn:Ho; [right | by left].
  destruct (disable_polling_frame _ _ _ _ _ H) as (_ & Hh & _).
  rewrite Hh in Ho. by apply (disable_polling_post _ _ _ _ _ H).
Qed.

End PrePass.

Lemma persist_if_modified_spec env modified c w :
  writes (persist_if_modified env modified c w).2
  = (writes w + (if modified then 1 else 0))%nat
  ∧ (modified = false → persist_if_modified env modified c w = (ret c, w))
  ∧ (modified = true → file_write env (writes w) = WriteOk →
     persist_if_modified env modified c w
     = (ret c, {| disk := Conf c; requests := requests w; writes := S (writes w) |}))
  ∧ (modified = true → ∀ f, file_write env (writes w) = WriteRaises f →
     persist_if_modified env modified c w
     = (raise OSError,
        {| disk := f; requests := requests w; writes := S (writes w) |})).
Proof.
  unfold persist_if_modified, write_config.
  destruct modified.
  - destruct (file_write env (writes w)) as [|f]; simpl.
    + split; [lia |]. split; [done |]. split; [done |]. by intros _ f.
    + split; [lia |]. split; [done |]. split; [by intros _ |].
      by intros _ f' [= ->].
  - simpl. split; [lia |]. split; [done |]. split; done.
Qed.

(** C7: when the pre-pass loop returns, every section other than the
    sentinel that has a [polling_interval] has it equal to [999999], in the
    config the main pass goes on with; the file is written once when the
    interval of some section changed and not at all otherwise. *)
Theorem pre_pass_disables_polling env c w c' modified :
  disable_polling (Config.sections c) c false = ret (c', modified) →
  (∀ s, s ∈ Config.sections c → s ≠ sentinel →
        Config.has_option c' s "polling_interval" = true →
        Config.get c' s "polling_interval" = ret "999999")
  ∧ (modified = true ↔
     ∃ s, s ∈ Config.sections c ∧ s ≠ sentinel
          ∧ Config.has_option c s "polling_interval" = true
          ∧ Config.get c s "polling_interval" ≠ ret "999999")
  ∧ (modified = false → c' = c)
  ∧ writes (persist_if_modified env modified c' w).2
    = (writes w + (if modified then 1 else 0))%nat
  ∧ (modified = false → persist_if_modified env modified c' w = (ret c', w))
  ∧ (modified = true → file_write env (writes w) = WriteOk →
     ∃ w', persist_if_modified env modified c' w = (ret c', w')
           ∧ disk w' = Conf c').
Proof.
  intros H.
  destruct (disable_polling_frame _ _ _ _ _ H) as (_ & Hh & _ & _ & _ & Hsame).
  destruct (persist_if_modified_spec env modified c' w) as (P1 & P2 & P3 & _).
  split; [| split; [| split; [done |]]].
  - intros s Hin Hne Ho. rewrite Hh in Ho.
    by apply (disable_polling_post _ _ _ _ _ H).
  - rewrite (disable_polling_modified _ _ _ _ _ H). unfold polling_due.
    split; [intros [?|?]; [done | done] | by right].
  - split; [done |]. split; [done |].
    intros Hm Hw. eexists. split; [by apply P3 | done].
Qed.

Lemma pre_pass_disables_polling_witness :
  Config.get Sample.switched_off Sample.tower "polling_interval" = ret "999999"
  ∧ writes (persist_if_modified (Sample.quiet 2024 3) true Sample.switched_off
              (Sample.on_disk Sample.one_section)).2 = 1%nat.
Proof.
  destruct (pre_pass_disables_polling (Sample.quiet 2024 3) Sample.one_section
              (Sample.on_disk Sample.one_section) Sample.switched_off true)
    as (Hpost & _ & _ & Hw & _).
  - vm_compute. reflexivity.
  - split; [| exact Hw].
    apply Hpost; [by apply list_elem_of_singleton | discriminate | reflexivity].
Defined.

Lemma persist_if_modified_config env modified c w c2 w1 :
  persist_if_modified env modified c w = (inr c2, w1) → c2 = c.
Proof.
  unfold persist_if_modified, write_config, read_config.
  destruct modified; [| by intros [= <- _]].
  destruct (file_write env (writes w)); simpl; [| done]. by intros [= <- _].
Qed.

(** ** The main pass *)

Lemma iteration_no_raise env property_id section_name max s config w :
  ∃ f c' w', iteration env property_id section_name max s config w = (ret f, c', w').
Proof.
  unfold iteration.
  destruct (get_credentials_total config section_name) as [[u|] ->]; [| eauto].
  simpl. destruct (http env (length (requests w))) as [| |[|a t]]; eauto.
  destruct (write_found _ _ _ _ _) as [[[e|[]] c'] w2]; eauto.
Qed.

(** Whatever goes wrong inside the loop is caught there. *)
Lemma while_loop_no_raise fuel env property_id section_name max s config w r c' w' :
  while_loop fuel env property_id section_name max s config w = Some (r, c', w') →
  ∃ x, r = ret x.
Proof.
  revert s config w. induction fuel as [|fuel IH]; intros s config w;
    rewrite while_loop_eq;
    (destruct (years_checked s <=? max); [| intros [= <- _ _]; eauto]);
    destruct (iteration_no_raise env property_id section_name max s config w)
      as ([s'|x] & c1 & w1 & ->); try done; try (intros [= <- _ _]; eauto).
  apply IH.
Qed.

Lemma get_score_no_raise fuel env property_id y m section_name config max w r c' w' :
  get_score fuel env property_id y m section_name config max w = Some (r, c', w') →
  ∃ x, r = ret x.
Proof.
  unfold get_score. destruct (String.eqb section_name sentinel).
  - intros [= <- _ _]. eauto.
  - apply while_loop_no_raise.
Qed.

(** The two ways through the loop body: one of the three skips before the
    search, or a search whose success decides between Updated and Error. *)
Lemma process_section_spec fuel env section config t w r c' w' :
  process_section fuel env section config t w = Some (r, c', w') →
  (r = ret (skipped t) ∧ c' = config ∧ w' = w
   ∧ (section = sentinel
      ∨ Config.has_option config section "endpoint" = false
      ∨ ∃ endpoint, Config.get config section "endpoint" = ret endpoint
                    ∧ extract_property_id endpoint = None))
  ∨ (section ≠ sentinel
     ∧ ∃ endpoint property_id success y m,
         Config.get config section "endpoint" = ret endpoint
         ∧ extract_property_id endpoint = Some property_id
         ∧ get_score fuel env property_id (current_year env) (current_month env)
             section config 1 w
           = Some (ret (success, y, m), c', w')
         ∧ r = ret (if success then updated t else errored t)).
Proof.
  unfold process_section.
  destruct (String.eqb_spec section sentinel) as [->|Hne].
  { intros [= <- <- <-]. left. repeat split. by left. }
  destruct (Config.has_option config section "endpoint") eqn:Ho; simpl.
  2:{ intros [= <- <- <-]. left. repeat split. right. by left. }
  destruct (has_option_get _ _ _ Ho) as [endpoint He]. rewrite He.
  cbv beta iota delta [ret].
  destruct (extract_property_id endpoint) as [property_id|] eqn:Ex.
  2:{ intros [= <- <- <-]. left. repeat split. right. right. by exists endpoint. }
  destruct property_id as [|a p].
  { by destruct (extract_property_id_Some _ _ Ex) as [? _]. }
  destruct (get_score _ _ _ _ _ _ _ _ _) as [[[sr c1] w1]|] eqn:G; [| done].
  destruct (get_score_no_raise _ _ _ _ _ _ _ _ _ _ _ _ G) as [[[success y] m] ->].
  intros H. right. split; [done |].
  exists endpoint, (String a p), success, y, m.
  destruct success; injection H as <- <- <-; done.
Qed.

Lemma process_section_counts fuel env section config t w r c' w' :
  process_section fuel env section config t w = Some (r, c', w') →
  ∃ t', r = ret t' ∧ total t' = S (total t).
Proof.
  intros H. apply process_section_spec in H
    as [(-> & _)|(_ & ? & ? & success & ? & ? & _ & _ & _ & ->)].
  - eexists. split; [done |]. unfold total, skipped. simpl. lia.
  - eexists. split; [done |]. unfold total. destruct success; simpl; lia.
Qed.

Lemma main_pass_total fuel env secs config t w oe t' c' w' :
  main_pass fuel env secs config t w = Some (oe, t', c', w') →
  oe = None ∧ total t' = (total t + length secs)%nat.
Proof.
  revert config t w. induction secs as [|s rest IH]; intros config t w; simpl.
  - intros [= <- <- _ _]. split; [done | lia].
  - destruct (process_section fuel env s config t w) as [[[r c1] w1]|] eqn:P; [| done].
    destruct (process_section_counts _ _ _ _ _ _ _ _ _ P) as (t1 & -> & Ht).
    intros H. destruct (IH _ _ _ H) as [-> Hl]. split; [done | lia].
Qed.

(** The loop of [main] goes through the branches of [counted], one section
    after the other. *)
Lemma main_pass_counted fuel env secs c t w oe t' c' w' :
  main_pass fuel env secs c t w = Some (oe, t', c', w') →
  counted fuel env secs c t w c' t' w'.
Proof.
  revert c t w. induction secs as [|s rest IH]; intros c t w; simpl.
  - intros [= _ <- <- <-]. constructor.
  - destruct (process_section fuel env s c t w) as [[[r c1] w1]|] eqn:P; [| done].
    apply process_section_spec in P.
    destruct P as [(-> & -> & -> & Hwhy)
                  |(Hne & endpoint & property_id & success & yr & mr
                    & He & Hx & Hg & ->)];
      cbv beta iota delta [ret]; intros H.
    + eapply counted_skip; [exact Hwhy | by apply IH].
    + eapply counted_search; [exact Hne | exact He | exact Hx | exact Hg |].
      by apply IH.
Qed.

(** C10: when a run over a plain config gets through its main pass, the
    three counters add up to the number of sections, and the tally is the
    one reached by going over the sections in order from the config the
    pre-pass left, where a section is counted as Skipped only in the three
    branches before the search (sentinel, no endpoint, no property id) and
    a section that reaches [get_score] is counted as Updated when the
    search succeeds and as Error when it does not. *)
Theorem tally_accounts_for_every_section fuel env w t w' c :
  main fuel env w = Some (Complete t, w') →
  read_config w = ret c →
  plain_config c = true →
  (updated_count t + error_count t + skipped_count t)%nat
  = length (Config.sections c)
  ∧ ∃ c1 modified w1 c3,
      disable_polling (Config.sections c) c false = ret (c1, modified)
      ∧ persist_if_modified env modified c1 w = (ret c1, w1)
      ∧ counted fuel env (Config.sections c) c1
          {| updated_count := 0; error_count := 0; skipped_count := 0 |} w1
          c3 t w'.
Proof.
  unfold main. intros H R _. rewrite R in H. cbv beta iota delta [ret] in H.
  destruct (Config.sections c) as [|s0 rest] eqn:Hs; [done |].
  cbv beta iota in H. rewrite <- Hs in *.
  destruct (disable_polling (Config.sections c) c false) as [e|[c1 modified]] eqn:D;
    [by destruct e |].
  destruct (persist_if_modified env modified c1 w) as [[e|c2] w1] eqn:P;
    [by destruct e |].
  pose proof (persist_if_modified_config _ _ _ _ _ _ P) as ->.
  destruct (main_pass _ _ _ _ _ _) as [[[[oe t1] c3] w2]|] eqn:M; [| done].
  destruct (main_pass_total _ _ _ _ _ _ _ _ _ _ M) as [-> Ht].
  injection H as <- <-. split.
  - unfold total in Ht. simpl in Ht. lia.
  - exists c1, modified, w1, c3. split; [done |]. split; [done |].
    by eapply main_pass_counted.
Qed.

Lemma tally_accounts_for_every_section_witness :
  (1 + 0 + 0)%nat = length (Config.sections Sample.one_section).
Proof.
  refine (proj1 (tally_accounts_for_every_section 2 (Sample.third_time 2024 3)
                   (Sample.on_disk Sample.one_section)
                   {| updated_count := 1; error_count := 0; skipped_count := 0 |}
                   _ Sample.one_section _ _ _)).
  - vm_compute. reflexivity.
  - reflexivity.
  - reflexivity.
Defined.

(** ** Runs that find no data *)

Section NoData.

Context (fuel : nat) (env : Env).
Hypothesis Hmiss : no_data env.
Hypothesis Hmonth : 1 <= current_month env <= 12.
Hypothesis Hfuel : (23 ≤ fuel)%nat.

Lemma process_section_no_data section config t w :
  ∃ t' w', process_section fuel env section config t w = Some (ret t', config, w')
           ∧ disk w' = disk w ∧ writes w' = writes w.
Proof.
  unfold process_section.
  destruct (String.eqb section sentinel); [by exists (skipped t), w |].
  destruct (Config.has_option config section "endpoint") eqn:Ho; simpl;
    [| by exists (skipped t), w].
  destruct (has_option_get _ _ _ Ho) as [endpoint ->].
  cbv beta iota delta [ret].
  destruct (extract_property_id endpoint) as [[|a p]|];
    [by exists (skipped t), w | | by exists (skipped t), w].
  destruct (get_score_no_data fuel env (String a p) (current_year env)
              (current_month env) section config w)
    as (w' & -> & Hd & Hw & _); [done | done | lia |].
  by exists (errored t), w'.
Qed.

Lemma main_pass_no_data secs config t w :
  ∃ t' w', main_pass fuel env secs config t w = Some (None, t', config, w')
           ∧ disk w' = disk w ∧ writes w' = writes w.
Proof.
  revert t w. induction secs as [|s rest IH]; intros t w; simpl.
  - by exists t, w.
  - destruct (process_section_no_data s config t w) as (t1 & w1 & -> & Hd & Hw).
    cbv beta iota delta [ret].
    destruct (IH t1 w1) as (t' & w' & -> & Hd' & Hw').
    exists t', w'. split; [done |]. split; congruence.
Qed.

(** The file is settled when its pre-pass would find nothing due. *)
Lemma main_no_data_settled w :
  (∀ c, read_config w = ret c → ∀ s, s ∈ Config.sections c → polling_left s c) →
  ∃ r w', main fuel env w = Some (r, w')
          ∧ disk w' = disk w ∧ writes w' = writes w.
Proof.
  intros Hs. unfold main.
  destruct (read_config w) as [e|c] eqn:R; [by eexists _, w |].
  destruct (Config.sections c) as [|s0 rest] eqn:Hsec; [by eexists _, w |].
  rewrite <- Hsec, (disable_polling_idle (Config.sections c) c false) by eauto.
  cbv beta iota delta [ret persist_if_modified].
  destruct (main_pass_no_data (Config.sections c) c
              {| updated_count := 0; error_count := 0; skipped_count := 0 |} w)
    as (t' & w' & -> & Hd & Hw).
  by exists (Complete t'), w'.
Qed.

(** A run whose write, if it makes one, goes through leaves a settled
    file behind. *)
Lemma main_no_data_settles w :
  file_write env (writes w) = WriteOk →
  ∃ r w', main fuel env w = Some (r, w')
          ∧ ∀ c, disk w' = Conf c → ∀ s, s ∈ Config.sections c → polling_left s c.
Proof.
  intros Hok. unfold main, read_config.
  destruct (disk w) as [| |c] eqn:D.
  - exists NoSections, w. split; [done |]. intros c. by rewrite D.
  - eexists _, w. split; [done |]. intros c. by rewrite D.
  - simpl. destruct (Config.sections c) as [|s0 rest] eqn:Hsec.
    { exists NoSections, w. split; [done |].
      intros c'. rewrite D. intros [= <-] s. rewrite Hsec. by intros ?%elem_of_nil. }
    rewrite <- Hsec.
    destruct (disable_polling_total (Config.sections c) c false)
      as (c1 & modified & Hdp). rewrite Hdp. cbv beta iota delta [ret].
    destruct (disable_polling_frame _ _ _ _ _ Hdp) as (Hord & _).
    assert (Hset : ∀ s, s ∈ Config.sections c1 → polling_left s c1).
    { intros s Hin. apply (disable_polling_settled _ _ _ _ _ Hdp).
      unfold Config.sections in *. by rewrite <- Hord. }
    destruct (persist_if_modified_spec env modified c1 w) as (_ & P2 & P3 & _).
    destruct modified.
    + rewrite P3 by done. cbv beta iota delta [ret].
      destruct (main_pass_no_data (Config.sections c) c1
                  {| updated_count := 0; error_count := 0; skipped_count := 0 |}
                  {| disk := Conf c1; requests := requests w;
                     writes := S (writes w) |})
        as (t' & w' & -> & Hd & _).
      exists (Complete t'), w'. split; [done |].
      intros c'. rewrite Hd. simpl. by intros [= <-].
    + rewrite P2 by done. cbv beta iota delta [ret].
      destruct (disable_polling_frame _ _ _ _ _ Hdp) as (_ & _ & _ & _ & _ & Hsame).
      rewrite Hsame in * by done.
      destruct (main_pass_no_data (Config.sections c) c
                  {| updated_count := 0; error_count := 0; skipped_count := 0 |} w)
        as (t' & w' & -> & Hd & _).
      exists (Complete t'), w'. split; [done |].
      intros c'. rewrite Hd, D. by intros [= <-].
Qed.

End NoData.

(** C8: two runs in a row, neither of which finds a score.  Provided the
    one write the first run may attempt goes through, the second run ends
    with the file exactly as the first run left it, so with the same
    [endpoint] and [polling_interval] in every section, and it does not
    write at all. *)
Theorem second_run_changes_nothing fuel env1 env2 w0 :
  no_data env1 → no_data env2 →
  1 <= current_month env1 <= 12 → 1 <= current_month env2 <= 12 →
  (23 ≤ fuel)%nat →
  file_write env1 (writes w0) = WriteOk →
  ∃ r1 w1 r2 w2,
    main fuel env1 w0 = Some (r1, w1)
    ∧ main fuel env2 w1 = Some (r2, w2)
    ∧ disk w2 = disk w1
    ∧ writes w2 = writes w1
    ∧ ∀ c1 c2 s, disk w1 = Conf c1 → disk w2 = Conf c2 →
        Config.get c2 s "endpoint" = Config.get c1 s "endpoint"
        ∧ Config.get c2 s "polling_interval" = Config.get c1 s "polling_interval".
Proof.
  intros M1 M2 D1 D2 Hfuel Hok.
  destruct (main_no_data_settles fuel env1 M1 D1 Hfuel w0 Hok) as (r1 & w1 & R1 & Hs).
  destruct (main_no_data_settled fuel env2 M2 D2 Hfuel w1) as (r2 & w2 & R2 & Hd & Hw).
  { intros c R s Hin. unfold read_config in R.
    destruct (disk w1) as [| |c'] eqn:D; [| done |].
    - injection R as <-. by apply elem_of_nil in Hin.
    - injection R as <-. by apply (Hs c'). }
  exists r1, w1, r2, w2.
  split; [exact R1 |]. split; [exact R2 |]. split; [exact Hd |]. split; [exact Hw |].
  intros c1 c2 s E1 E2. rewrite Hd, E1 in E2. by injection E2 as <-.
Qed.

Lemma second_run_changes_nothing_witness :
  ∃ r1 w1 r2 w2,
    main 23 (Sample.quiet 2024 3) (Sample.on_disk Sample.one_section) = Some (r1, w1)
    ∧ main 23 (Sample.quiet 2024 4) w1 = Some (r2, w2)
    ∧ disk w2 = disk w1.
Proof.
  destruct (second_run_changes_nothing 23 (Sample.quiet 2024 3) (Sample.quiet 2024 4)
              (Sample.on_disk Sample.one_section))
    as (r1 & w1 & r2 & w2 & R1 & R2 & Hd & _).
  - intros n. reflexivity.
  - intros n. reflexivity.
  - simpl. lia.
  - simpl. lia.
  - lia.
  - reflexivity.
  - exists r1, w1, r2, w2. split; [exact R1 |]. split; [exact R2 | exact Hd].
Defined.

(** ** Where the script parts from its own words *)

(** C2: a section that reaches the search without credentials is logged as
    skipped by [get_score] but counted by [main] as an Error: the failure
    tuple is all [main] sees, and its Skipped branch after the search cannot
    be reached. *)
Theorem missing_credentials_counted_as_error fuel env section config t w
    endpoint property_id :
  section ≠ sentinel →
  Config.get config section "endpoint" = ret endpoint →
  extract_property_id endpoint = Some property_id →
  get_credentials_from_config config section = ret None →
  process_section fuel env section config t w = Some (ret (errored t), config, w).
Proof.
  intros Hne He Hx Hc. unfold process_section.
  rewrite (proj2 (String.eqb_neq _ _) Hne), (get_has_option _ _ _ _ He), He.
  cbv beta iota delta [ret negb]. rewrite Hx.
  destruct property_id as [|a p].
  { by destruct (extract_property_id_Some _ _ Hx) as [? _]. }
  by rewrite get_score_without_credentials.
Qed.

Lemma missing_credentials_counted_as_error_witness :
  process_section 0 (Sample.quiet 2024 3) Sample.annex Sample.no_credentials
    {| updated_count := 0; error_count := 0; skipped_count := 0 |}
    (Sample.on_disk Sample.no_credentials)
  = Some (ret {| updated_count := 0; error_count := 1; skipped_count := 0 |},
          Sample.no_credentials, Sample.on_disk Sample.no_credentials).
Proof.
  apply (missing_credentials_counted_as_error 0 (Sample.quiet 2024 3) Sample.annex
           Sample.no_credentials
           {| updated_count := 0; error_count := 0; skipped_count := 0 |}
           (Sample.on_disk Sample.no_credentials)
           (metrics_url "777" 2023 7) "777").
  - discriminate.
  - reflexivity.
  - reflexivity.
  - reflexivity.
Defined.

(** The whole run on that config: no request, one Error, nothing Skipped. *)
Example run_without_credentials :
  (λ x, (x.1, requests x.2)) <$>
    main 0 (Sample.quiet 2024 3) (Sample.on_disk Sample.no_credentials)
  = Some (Complete {| updated_count := 0; error_count := 1; skipped_count := 0 |}, []).
Proof. vm_compute. reflexivity. Qed.

(** C3: when the write after a found score raises, the iteration catches
    the exception like any other, keeps the endpoint it has already put
    into the config object, and steps back a month: the failure is taken up
    by the backward search instead of ending the run. *)
Theorem write_failure_absorbed env property_id section_name max config
    credentials s w a t f :
  get_credentials_from_config config section_name = ret (Some credentials) →
  http env (length (requests w)) = ScoreText (String a t) →
  file_write env (writes w) = WriteRaises f →
  ∃ c',
    iteration env property_id section_name max s config w
    = (ret (try_previous_month max s), c',
       {| disk := f;
          requests := (requests w ++ [metrics_url property_id (year s) (month s)])%list;
          writes := S (writes w) |})
    ∧ Config.get c' section_name "endpoint"
      = ret (metrics_url property_id (year s) (month s)).
Proof.
  intros Hc Hh Hw.
  destruct (get_credentials_Some _ _ _ Hc) as [d Hd].
  unfold iteration. rewrite Hc. unfold http_get. rewrite Hh.
  unfold write_found, Config.set, write_config.
  rewrite Hd. simpl. rewrite lookup_insert_eq. simpl.
  rewrite lookup_insert_eq. simpl. rewrite Hw.
  eexists. split; [reflexivity |].
  unfold Config.get. simpl. rewrite !lookup_insert_eq.
  by rewrite lookup_insert_ne, lookup_insert_eq.
Qed.

Lemma write_failure_absorbed_witness :
  ∃ c',
    iteration (Sample.read_only Sample.switched_off 2024 3) "12345" Sample.tower 1
      {| year := 2024; month := 3; years_checked := 0 |}
      Sample.switched_off (Sample.on_disk Sample.switched_off)
    = (ret (Continue {| year := 2024; month := 2; years_checked := 0 |}), c',
       {| disk := Conf Sample.switched_off;
          requests := [metrics_url "12345" 2024 3];
          writes := 1 |})
    ∧ Config.get c' Sample.tower "endpoint" = ret (metrics_url "12345" 2024 3).
Proof.
  apply (write_failure_absorbed (Sample.read_only Sample.switched_off 2024 3)
           "12345" Sample.tower 1 Sample.switched_off ("viewer", "secret")
           {| year := 2024; month := 3; years_checked := 0 |}
           (Sample.on_disk Sample.switched_off) "7" "5" (Conf Sample.switched_off)).
  - reflexivity.
  - reflexivity.
  - reflexivity.
Defined.

(** The whole run with a file that cannot be rewritten: the score found at
    the first request is lost, fourteen more months are asked for, and the
    run ends with its tally, one Error, instead of being aborted. *)
Example run_with_read_only_file :
  (λ x, (x.1, length (requests x.2), writes x.2, disk x.2)) <$>
    main 30 (Sample.read_only Sample.switched_off 2024 3)
      (Sample.on_disk Sample.switched_off)
  = Some (Complete {| updated_count := 0; error_count := 1; skipped_count := 0 |},
          15%nat, 1%nat, Conf Sample.switched_off).
Proof. vm_compute. reflexivity. Qed.

(** * Further properties *)

(** ** The update after a found score *)

Lemma write_found_eq env section_name new_endpoint c w d :
  Config.sects c !! section_name = Some d →
  write_found env section_name new_endpoint c w
  = ((write_config env (rewritten c section_name d new_endpoint) w).1,
     rewritten c section_name d new_endpoint,
     (write_config env (rewritten c section_name d new_endpoint) w).2).
Proof.
  intros Hd. unfold write_found, Config.set, rewritten.
  rewrite Hd. simpl. rewrite lookup_insert_eq. simpl.
  rewrite lookup_insert_eq. simpl.
  rewrite !insert_insert_eq.
  rewrite (insert_insert_ne _ "endpoint" "polling_interval") by done.
  rewrite insert_insert_eq.
  by destruct (write_config env _ w).
Qed.

(** X7: The first [polling_interval] write of [get_score] never shows: what is
    written is what setting the endpoint and then the final interval gives. *)
Theorem first_interval_write_is_dead env section_name new_endpoint c w :
  write_found env section_name new_endpoint c w
  = match Config.set c section_name "endpoint" new_endpoint with
    | inl e => (raise e, c, w)
    | inr c1 =>
        match Config.set c1 section_name "polling_interval" "0 0 5 31 2 ?" with
        | inl e => (raise e, c1, w)
        | inr c2 => let '(r, w') := write_config env c2 w in (r, c2, w')
        end
    end.
Proof.
  destruct (Config.sects c !! section_name) as [d|] eqn:Hd.
  - rewrite (write_found_eq _ _ _ _ _ d Hd).
    unfold Config.set, rewritten. rewrite Hd. simpl.
    rewrite lookup_insert_eq. simpl. rewrite insert_insert_eq.
    by destruct (write_config env _ w).
  - unfold write_found, Config.set. by rewrite Hd.
Qed.

(** ** One iteration, whatever the answer *)

Lemma is_miss_false (r : response) :
  is_miss r = false → ∃ a t, r = ScoreText (String a t).
Proof. destruct r as [| |[|a t]]; try done. eauto. Qed.

Lemma get_credentials_section c s u :
  get_credentials_from_config c s = ret (Some u) →
  ∃ d, Config.sects c !! s = Some d.
Proof. intros H. by destruct (get_credentials_Some _ _ _ H) as [d ?]; exists d. Qed.

(** The four ways through the loop body. *)
Lemma iteration_cases env property_id section_name max s c w f c' w' :
  iteration env property_id section_name max s c w = (ret f, c', w') →
  let url := metrics_url property_id (year s) (month s) in
  (get_credentials_from_config c section_name = ret None
   ∧ f = Return not_found ∧ c' = c ∧ w' = w)
  ∨ (is_miss (http env (length (requests w))) = true
     ∧ f = try_previous_month max s ∧ c' = c ∧ w' = (http_get env url w).2)
  ∨ (∃ d, Config.sects c !! section_name = Some d
          ∧ is_miss (http env (length (requests w))) = false
          ∧ c' = rewritten c section_name d url
          ∧ ((file_write env (writes w) = WriteOk
              ∧ f = Return (true, Some (year s), Some (month s))
              ∧ w' = {| disk := Conf c'; requests := (requests w ++ [url])%list;
                        writes := S (writes w) |})
             ∨ (∃ left_behind,
                  file_write env (writes w) = WriteRaises left_behind
                  ∧ f = try_previous_month max s
                  ∧ w' = {| disk := left_behind;
                            requests := (requests w ++ [url])%list;
                            writes := S (writes w) |}))).
Proof.
  intros H url. unfold iteration in H. fold url in H.
  destruct (get_credentials_total c section_name) as [[u|] Hc]; rewrite Hc in H.
  2:{ left. by injection H as <- <- <-. }
  right. cbv beta iota delta [ret] in H. unfold http_get in H.
  destruct (http env (length (requests w))) as [| |[|a t]] eqn:Hh.
  1-3: left; by injection H as <- <- <-.
  right. destruct (get_credentials_section _ _ _ Hc) as [d Hd].
  exists d. split; [done |]. split; [done |].
  rewrite (write_found_eq _ _ _ _ _ d Hd) in H.
  unfold write_config in H. simpl in H.
  destruct (file_write env (writes w)) as [|fl] eqn:Hw; simpl in H;
    injection H as <- <- <-; (split; [done |]); [left | right; exists fl]; done.
Qed.

(** A step back stays among the months left, or ends the search. *)
Lemma try_previous_month_Continue max s s' :
  try_previous_month max s = Continue s' →
  s' = previous_month s ∧ years_checked s' <= max.
Proof.
  unfold try_previous_month.
  destruct (years_checked (previous_month s) >? max) eqn:E; [done |].
  intros [= <-]. split; [done | lia].
Qed.

Lemma try_previous_month_Return max s r :
  try_previous_month max s = Return r → r = not_found.
Proof.
  unfold try_previous_month.
  destruct (years_checked (previous_month s) >? max); [| done].
  by intros [= <-].
Qed.

Lemma previous_month_left max s :
  1 <= month s <= 12 →
  1 <= month (previous_month s) <= 12
  ∧ months_left max (previous_month s) = months_left max s - 1.
Proof.
  intros Hm. unfold previous_month, months_left.
  destruct (Z.eqb_spec (month s) 1) as [E|E]; simpl; lia.
Qed.

(** Reasoning about the loop with an invariant [I] and a condition [Q] on
    what it returns. *)
Lemma while_loop_rule env property_id section_name max
    (I : SearchState → Config.t → World → Prop)
    (Q : score_result → Config.t → World → Prop) :
  (∀ s c w, I s c w → ¬ years_checked s <= max → Q not_found c w) →
  (∀ s c w f c' w',
     I s c w → years_checked s <= max →
     iteration env property_id section_name max s c w = (ret f, c', w') →
     match f with Continue s' => I s' c' w' | Return r => Q r c' w' end) →
  ∀ fuel s c w r c' w',
    I s c w →
    while_loop fuel env property_id section_name max s c w = Some (r, c', w') →
    ∃ x, r = ret x ∧ Q x c' w'.
Proof.
  intros Hexit Hstep fuel.
  induction fuel as [|fuel IH]; intros s c w r c' w' Hi; rewrite while_loop_eq;
    (destruct (Z.leb_spec (years_checked s) max) as [Hy|Hy];
     [| intros [= <- <- <-]; eexists; split; [done |]; apply (Hexit s); [done | lia]]);
    destruct (iteration_no_raise env property_id section_name max s c w)
      as (f & c1 & w1 & Hit); rewrite Hit;
    pose proof (Hstep _ _ _ _ _ _ Hi Hy Hit) as Hf;
    cbv beta iota delta [ret]; destruct f as [s1|x]; try done;
    try (intros [= <- <- <-]; by exists x).
  by apply IH.
Qed.

(** ** Termination of the search *)

Lemma iteration_Continue env property_id section_name max s c w s1 c1 w1 :
  iteration env property_id section_name max s c w = (ret (Continue s1), c1, w1) →
  s1 = previous_month s ∧ years_checked s1 <= max.
Proof.
  intros H. apply iteration_cases in H.
  destruct H as [(_ & H & _)|[(_ & H & _)|(d & _ & _ & _ & [(_ & H & _)|(fl & _ & H & _)])]];
    try done; by apply try_previous_month_Continue.
Qed.

Lemma while_loop_terminates env property_id section_name max (n : nat) s c w fuel :
  1 <= month s <= 12 → years_checked s <= max →
  months_left max s <= Z.of_nat (S n) → (n ≤ fuel)%nat →
  is_Some (while_loop fuel env property_id section_name max s c w).
Proof.
  revert s c w fuel. induction n as [|n IH]; intros s c w fuel Hm Hy Hl Hf;
    rewrite while_loop_eq, (proj2 (Z.leb_le _ _) Hy);
    destruct (iteration_no_raise env property_id section_name max s c w)
      as ([s1|x] & c1 & w1 & Hit); rewrite Hit; cbv beta iota delta [ret]; eauto;
    destruct (iteration_Continue _ _ _ _ _ _ _ _ _ _ Hit) as [-> Hy1];
    destruct (previous_month_left max s Hm) as [Hm1 Hl1];
    unfold months_left in *.
  - lia.
  - destruct fuel as [|fuel]; [lia |]. apply IH; unfold months_left; lia.
Qed.

Lemma length_requests_http_get env url w :
  length (requests (http_get env url w).2) = S (length (requests w)).
Proof. unfold http_get. simpl. rewrite length_app. simpl. lia. Qed.

(** Requests and write attempts of a search that started with [l0]
    requests and [w0] writes behind it and [b] as its budget. *)
Lemma while_loop_bounds env property_id section_name max (l0 w0 : nat) (b : Z)
    fuel s c w r c' w' :
  1 <= month s <= 12 → years_checked s <= max →
  Z.of_nat (length (requests w)) + months_left max s <= b →
  (l0 ≤ length (requests w))%nat →
  (writes w + l0 ≤ w0 + length (requests w))%nat → (w0 ≤ writes w)%nat →
  while_loop fuel env property_id section_name max s c w = Some (r, c', w') →
  Z.of_nat (length (requests w')) <= b
  ∧ (l0 ≤ length (requests w'))%nat
  ∧ (writes w' + l0 ≤ w0 + length (requests w'))%nat
  ∧ (w0 ≤ writes w')%nat.
Proof.
  intros Hm Hy Hb Hl Hw Hw0 H.
  destruct (while_loop_rule env property_id section_name max
              (λ s c w, 1 <= month s <= 12 ∧ years_checked s <= max
                        ∧ Z.of_nat (length (requests w)) + months_left max s <= b
                        ∧ (l0 ≤ length (requests w))%nat
                        ∧ (writes w + l0 ≤ w0 + length (requests w))%nat
                        ∧ (w0 ≤ writes w)%nat)
              (λ _ _ w, Z.of_nat (length (requests w)) <= b
                        ∧ (l0 ≤ length (requests w))%nat
                        ∧ (writes w + l0 ≤ w0 + length (requests w))%nat
                        ∧ (w0 ≤ writes w)%nat))
    with (fuel := fuel) (s := s) (c := c) (w := w) (r := r) (c' := c') (w' := w')
    as (x & _ & HQ); try done.
  - intros s0 c0 w1 (_ & ? & _) ?. lia.
  - clear. intros s c w f c' w' (Hm & Hy & Hb & Hl & Hw & Hw0) _ Hit.
    destruct (previous_month_left max s Hm) as [Hm1 Hl1].
    assert (Hstep : ∀ w1 : World,
              length (requests w1) = S (length (requests w)) →
              (writes w ≤ writes w1 ≤ S (writes w))%nat →
              match try_previous_month max s with
              | Continue s' =>
                  1 <= month s' <= 12 ∧ years_checked s' <= max
                  ∧ Z.of_nat (length (requests w1)) + months_left max s' <= b
                  ∧ (l0 ≤ length (requests w1))%nat
                  ∧ (writes w1 + l0 ≤ w0 + length (requests w1))%nat
                  ∧ (w0 ≤ writes w1)%nat
              | Return _ =>
                  Z.of_nat (length (requests w1)) <= b
                  ∧ (l0 ≤ length (requests w1))%nat
                  ∧ (writes w1 + l0 ≤ w0 + length (requests w1))%nat
                  ∧ (w0 ≤ writes w1)%nat
              end).
    { intros w1 Hl' Hw'. unfold try_previous_month.
      unfold months_left in *.
      destruct (years_checked (previous_month s) >? max) eqn:E;
        repeat split; lia. }
    apply iteration_cases in Hit.
    destruct Hit as [(_ & -> & -> & ->)
                    |[(_ & -> & -> & ->)
                     |(d & _ & _ & -> & [(_ & -> & ->)|(fl & _ & -> & ->)])]].
    + unfold months_left in *. repeat split; lia.
    + apply Hstep; [apply length_requests_http_get | simpl; lia].
    + simpl. rewrite length_app. simpl. unfold months_left in *.
      repeat split; lia.
    + apply Hstep; simpl; [rewrite length_app; simpl; lia | lia].
Qed.

Lemma get_score_returns fuel env property_id y m section_name c max w :
  1 <= m <= 12 → 0 <= max → (Z.to_nat (m + 12 * max) - 1 ≤ fuel)%nat →
  ∃ r c' w',
    get_score fuel env property_id y m section_name c max w = Some (ret r, c', w')
    ∧ (length (requests w) ≤ length (requests w')
       ≤ length (requests w) + Z.to_nat (m + 12 * max))%nat
    ∧ (writes w ≤ writes w')%nat
    ∧ (writes w' - writes w ≤ length (requests w') - length (requests w))%nat.
Proof.
  intros Hm Hmax Hfuel. unfold get_score.
  destruct (String.eqb section_name sentinel).
  { exists not_found, c, w. split; [done |]. lia. }
  set (s := {| year := y; month := m; years_checked := 0 |}).
  destruct (while_loop_terminates env property_id section_name max
              (Z.to_nat (m + 12 * max) - 1) s c w fuel)
    as [[[r c'] w'] H]; [done | simpl; lia | unfold months_left; simpl; lia | done |].
  destruct (while_loop_no_raise _ _ _ _ _ _ _ _ _ _ _ H) as [x ->].
  destruct (while_loop_bounds env property_id section_name max
              (length (requests w)) (writes w)
              (Z.of_nat (length (requests w)) + (m + 12 * max))
              fuel s c w (ret x) c' w')
    as (B1 & B2 & B3 & B4); [done | simpl; lia | unfold months_left; simpl; lia
                             | lia | lia | lia | done |].
  exists x, c', w'. split; [done |]. lia.
Qed.

(** X1: Over a plain config, whatever the server and the disk do, a search
    started in a month between 1 and 12 with a non-negative
    [max_years_to_check] comes back, after at most
    [month + 12 * max_years_to_check] requests and with no more attempts to
    write than requests. *)
Theorem get_score_terminates fuel env property_id y m section_name c max w :
  plain_config c = true →
  1 <= m <= 12 → 0 <= max → (Z.to_nat (m + 12 * max) - 1 ≤ fuel)%nat →
  ∃ r c' w',
    get_score fuel env property_id y m section_name c max w = Some (ret r, c', w')
    ∧ (length (requests w) ≤ length (requests w')
       ≤ length (requests w) + Z.to_nat (m + 12 * max))%nat
    ∧ (writes w ≤ writes w')%nat
    ∧ (writes w' - writes w ≤ length (requests w') - length (requests w))%nat.
Proof. intros _. apply get_score_returns. Qed.

Lemma get_score_terminates_witness :
  ∃ r c' w',
    get_score 23 (Scenario.flaky_disk Sample.switched_off 2024 12) "12345" 2024 12
      Sample.tower Sample.switched_off 1 (Sample.on_disk Sample.switched_off)
    = Some (ret r, c', w')
    ∧ (length (requests w') ≤ 24)%nat.
Proof.
  destruct (get_score_terminates 23 (Scenario.flaky_disk Sample.switched_off 2024 12)
              "12345" 2024 12 Sample.tower Sample.switched_off 1
              (Sample.on_disk Sample.switched_off))
    as (r & c' & w' & H & [_ Hl] & _).
  - reflexivity.
  - lia.
  - lia.
  - simpl. lia.
  - exists r, c', w'. split; [exact H |]. simpl in Hl. lia.
Defined.

(** X2: A month below 1 is never January again: while no score comes back the
    search goes on for ever, whatever bound is put on the loop. *)
Theorem search_below_january_never_ends fuel env property_id y m section_name c
    credentials max w :
  m <= 0 → 0 <= max → no_data env → section_name ≠ sentinel →
  get_credentials_from_config c section_name = ret (Some credentials) →
  get_score fuel env property_id y m section_name c max w = None.
Proof.
  intros Hm Hmax Hmiss Hne Hc. unfold get_score.
  rewrite (proj2 (String.eqb_neq _ _) Hne).
  assert (G : ∀ s w0, month s <= 0 → years_checked s <= max →
              while_loop fuel env property_id section_name max s c w0 = None).
  { induction fuel as [|fuel IH]; intros s w0 Hs Hy;
      rewrite while_loop_eq, (proj2 (Z.leb_le _ _) Hy),
        (iteration_miss env property_id section_name max c credentials Hc)
        by apply Hmiss;
      unfold try_previous_month, previous_month;
      rewrite (proj2 (Z.eqb_neq (month s) 1)) by lia; simpl;
      (destruct (years_checked s >? max) eqn:E; [lia |]); [done |].
    apply IH; simpl; lia. }
  apply G; simpl; lia.
Qed.

Lemma search_below_january_never_ends_witness :
  get_score 1000 (Sample.quiet 2024 0) "12345" 2024 0 Sample.tower
    Sample.one_section 1 (Sample.on_disk Sample.one_section) = None.
Proof.
  apply (search_below_january_never_ends 1000 (Sample.quiet 2024 0) "12345" 2024 0
           Sample.tower Sample.one_section ("viewer", "secret") 1).
  - lia.
  - lia.
  - intros n. reflexivity.
  - discriminate.
  - reflexivity.
Defined.

(** X3: How far back a search without data goes: a negative
    [max_years_to_check] sends no request at all; otherwise every month
    down to January of the year [max_years_to_check] years back is asked
    for, so with 0 the rest of the current year and not the current month
    alone. *)
Theorem search_without_data_request_count fuel env property_id y m section_name c
    credentials max w :
  section_name ≠ sentinel →
  get_credentials_from_config c section_name = ret (Some credentials) →
  (max < 0 →
   get_score fuel env property_id y m section_name c max w
   = Some (ret not_found, c, w))
  ∧ (0 <= max → 1 <= m <= 12 → no_data env →
     (Z.to_nat (m + 12 * max) - 1 ≤ fuel)%nat →
     ∃ w', get_score fuel env property_id y m section_name c max w
           = Some (ret not_found, c, w')
       ∧ length (requests w')
         = (length (requests w) + Z.to_nat (m + 12 * max))%nat
       ∧ disk w' = disk w ∧ writes w' = writes w).
Proof.
  intros Hne Hc. unfold get_score. rewrite (proj2 (String.eqb_neq _ _) Hne).
  split.
  - intros Hmax. rewrite while_loop_eq. simpl years_checked.
    by rewrite (proj2 (Z.leb_gt 0 max)) by lia.
  - intros Hmax Hm Hmiss Hfuel.
    destruct (search_exhausts env property_id section_name max c credentials Hc
                Hmiss (Z.to_nat max)
                {| year := y; month := m; years_checked := 0 |} w fuel)
      as (w' & (Hd & Hw & Hl) & Hr); [done | simpl; lia | simpl; lia |].
    exists w'. split; [done |]. simpl in Hl. repeat split; [lia | done | done].
Qed.

Lemma search_without_data_request_count_witness :
  ∃ w', get_score 4 (Sample.quiet 2024 5) "12345" 2024 5 Sample.tower
          Sample.one_section 0 (Sample.on_disk Sample.one_section)
        = Some (ret not_found, Sample.one_section, w')
    ∧ length (requests w') = 5%nat.
Proof.
  destruct (search_without_data_request_count 4 (Sample.quiet 2024 5) "12345" 2024 5
              Sample.tower Sample.one_section ("viewer", "secret") 0
              (Sample.on_disk Sample.one_section))
    as [_ H]; [discriminate | reflexivity |].
  destruct H as (w' & Hr & Hl & _);
    [lia | lia | intros n; reflexivity | simpl; lia |].
  exists w'. split; [exact Hr | exact Hl].
Defined.

(** ** What a search does to the config *)

Lemma only_endpoint_changed_refl section property_id c :
  only_endpoint_changed section property_id c c.
Proof. unfold only_endpoint_changed. repeat split; auto. Qed.

Lemma only_endpoint_changed_trans section property_id c1 c2 c3 :
  only_endpoint_changed section property_id c1 c2 →
  only_endpoint_changed section property_id c2 c3 →
  only_endpoint_changed section property_id c1 c3.
Proof.
  intros (A1 & A2 & A3 & A4 & A5 & A6) (B1 & B2 & B3 & B4 & B5 & B6).
  unfold only_endpoint_changed.
  split; [congruence |]. split; [intros s; by rewrite B2 |].
  split; [intros s o H; by rewrite B3, A3 |].
  split; [intros s o H; by rewrite B4, A4 |].
  split; [intros o H; by apply B5, A5 |].
  destruct B6 as [B6|B6]; [rewrite B6; exact A6 | by right].
Qed.

Lemma only_endpoint_changed_rewritten section property_id c d y m :
  Config.sects c !! section = Some d →
  only_endpoint_changed section property_id c
    (rewritten c section d (metrics_url property_id y m)).
Proof.
  intros Hd.
  unfold only_endpoint_changed, rewritten, Config.sections, Config.has_section,
    Config.get, Config.has_option. simpl.
  split; [done |]. split.
  { intros s. destruct (decide (s = section)) as [->|Hs].
    - rewrite lookup_insert_eq, Hd.
      by rewrite !bool_decide_eq_true_2 by eauto.
    - by rewrite lookup_insert_ne. }
  split.
  { intros s o H. destruct (decide (s = section)) as [->|Hs].
    - destruct H as [|[H1 H2]]; [done |].
      rewrite lookup_insert_eq, Hd. by rewrite !lookup_insert_ne.
    - by rewrite lookup_insert_ne. }
  split.
  { intros s o H. destruct (decide (s = section)) as [->|Hs].
    - destruct H as [|[H1 H2]]; [done |].
      rewrite lookup_insert_eq, Hd. by rewrite !lookup_insert_ne.
    - by rewrite lookup_insert_ne. }
  split.
  { intros o. rewrite lookup_insert_eq, Hd.
    destruct (decide (o = "polling_interval")) as [->|H1].
    { intros _. rewrite lookup_insert_eq.
      by rewrite (bool_decide_eq_true_2 (is_Some (Some _))) by eauto. }
    rewrite lookup_insert_ne by done.
    destruct (decide (o = "endpoint")) as [->|H2].
    { intros _. rewrite lookup_insert_eq.
      by rewrite (bool_decide_eq_true_2 (is_Some (Some _))) by eauto. }
    by rewrite lookup_insert_ne. }
  right. exists y, m. rewrite lookup_insert_eq.
  by rewrite lookup_insert_ne, lookup_insert_eq.
Qed.

Lemma get_rewritten c section d new_endpoint :
  Config.get (rewritten c section d new_endpoint) section "endpoint" = ret new_endpoint
  ∧ Config.get (rewritten c section d new_endpoint) section "polling_interval"
    = ret "0 0 5 31 2 ?".
Proof.
  unfold rewritten, Config.get. simpl. rewrite lookup_insert_eq.
  split; [by rewrite lookup_insert_ne, lookup_insert_eq | by rewrite lookup_insert_eq].
Qed.

Lemma get_score_frame fuel env property_id y m section_name c max
    w r c' w' :
  get_score fuel env property_id y m section_name c max w = Some (r, c', w') →
  only_endpoint_changed section_name property_id c c'.
Proof.
  unfold get_score. destruct (String.eqb section_name sentinel).
  { intros [= _ <- _]. apply only_endpoint_changed_refl. }
  intros H.
  destruct (while_loop_rule env property_id section_name max
              (λ _ c0 _, only_endpoint_changed section_name property_id c c0)
              (λ _ c0 _, only_endpoint_changed section_name property_id c c0))
    with (fuel := fuel) (s := {| year := y; month := m; years_checked := 0 |})
         (c := c) (w := w) (r := r) (c' := c') (w' := w') as (x & _ & HQ);
    try done.
  - clear. intros s c0 w f c1 w1 Hi _ Hit. apply iteration_cases in Hit.
    assert (Hf : only_endpoint_changed section_name property_id c c1
                 → match f with
                   | Continue _ | Return _ =>
                       only_endpoint_changed section_name property_id c c1
                   end) by (by destruct f).
    apply Hf.
    destruct Hit as [(_ & _ & -> & _)|[(_ & _ & -> & _)|(d & Hd & _ & -> & _)]];
      [done | done |].
    eapply only_endpoint_changed_trans; [exact Hi |].
    by apply only_endpoint_changed_rewritten.
  - apply only_endpoint_changed_refl.
Qed.

(** X6: On a plain config and for a plain property id, a search changes
    nothing in the config but [endpoint] and [polling_interval] of its own
    section: the other sections, the credentials and the list of sections
    stay, and the endpoint is the old one or a metrics URL of the same
    property. *)
Theorem get_score_only_endpoint_changed fuel env property_id y m section_name c max
    w r c' w' :
  plain_config c = true → plain_value property_id = true →
  get_score fuel env property_id y m section_name c max w = Some (r, c', w') →
  only_endpoint_changed section_name property_id c c'.
Proof. intros _ _. apply get_score_frame. Qed.

Lemma get_score_only_endpoint_changed_witness :
  only_endpoint_changed Sample.tower "12345" Sample.one_section
    (rewritten Sample.one_section Sample.tower Sample.tower_options
       (metrics_url "12345" 2024 1)).
Proof.
  refine (get_score_only_endpoint_changed 2 (Sample.third_time 2024 3) "12345"
            2024 3 Sample.tower Sample.one_section 1
            (Sample.on_disk Sample.one_section)
            (ret (true, Some 2024, Some 1)) _ _ _ _ _).
  - reflexivity.
  - reflexivity.
  - vm_compute. reflexivity.
Defined.

Lemma try_previous_month_cases max s (P : flow → Prop) :
  P (Return not_found) →
  (years_checked (previous_month s) <= max → P (Continue (previous_month s))) →
  P (try_previous_month max s).
Proof.
  intros H1 H2. unfold try_previous_month.
  destruct (years_checked (previous_month s) >? max) eqn:E; [done |].
  apply H2. lia.
Qed.

Lemma previous_month_earlier s :
  12 * year (previous_month s) + month (previous_month s)
  = 12 * year s + month s - 1.
Proof.
  unfold previous_month. destruct (Z.eqb_spec (month s) 1); simpl; lia.
Qed.

Lemma get_score_shape fuel env property_id y m section_name c max w
    success yr mr c' w' :
  get_score fuel env property_id y m section_name c max w
  = Some (ret (success, yr, mr), c', w') →
  if success then
    ∃ y' m', yr = Some y' ∧ mr = Some m'
      ∧ 12 * y' + m' <= 12 * y + m
      ∧ disk w' = Conf c'
      ∧ Config.get c' section_name "endpoint" = ret (metrics_url property_id y' m')
      ∧ Config.get c' section_name "polling_interval" = ret "0 0 5 31 2 ?"
      ∧ last (requests w') = Some (metrics_url property_id y' m')
  else yr = None ∧ mr = None.
Proof.
  unfold get_score. destruct (String.eqb section_name sentinel).
  { by intros [= <- <- <- _ _]. }
  intros H.
  destruct (while_loop_rule env property_id section_name max
              (λ s _ _, 12 * year s + month s <= 12 * y + m)
              (λ r c0 w0,
                 let '(success, yr, mr) := r in
                 if success : bool then
                   ∃ y' m', yr = Some y' ∧ mr = Some m'
                     ∧ 12 * y' + m' <= 12 * y + m
                     ∧ disk w0 = Conf c0
                     ∧ Config.get c0 section_name "endpoint"
                       = ret (metrics_url property_id y' m')
                     ∧ Config.get c0 section_name "polling_interval"
                       = ret "0 0 5 31 2 ?"
                     ∧ last (requests w0) = Some (metrics_url property_id y' m')
                 else yr = None ∧ mr = None))
    with (fuel := fuel) (s := {| year := y; month := m; years_checked := 0 |})
         (c := c) (w := w) (r := ret (success, yr, mr)) (c' := c') (w' := w')
    as (x & Hx & HQ); try done.
  - clear. intros s c0 w f c1 w1 Hi _ Hit. apply iteration_cases in Hit.
    destruct Hit as [(_ & -> & _)
                    |[(_ & -> & _)
                     |(d & Hd & _ & -> & [(_ & -> & ->)|(fl & _ & -> & _)])]].
    + done.
    + apply try_previous_month_cases; [done |].
      intros _. rewrite previous_month_earlier. lia.
    + destruct (get_rewritten c0 section_name d
                  (metrics_url property_id (year s) (month s))) as [G1 G2].
      exists (year s), (month s). simpl. by rewrite last_snoc.
    + apply try_previous_month_cases; [done |].
      intros _. rewrite previous_month_earlier. lia.
  - by injection Hx as <-.
Qed.

(** X4: What [get_score] hands back.  A failure is always
    [(False, None, None)].  A success names a year and month not later than
    the start, which are those of its last request, and by then the file
    holds the config object, whose section points at that month and has
    the final interval. *)
Theorem get_score_result fuel env property_id y m section_name c max w
    success yr mr c' w' :
  get_score fuel env property_id y m section_name c max w
  = Some (ret (success, yr, mr), c', w') →
  if success then
    ∃ y' m', yr = Some y' ∧ mr = Some m'
      ∧ 12 * y' + m' <= 12 * y + m
      ∧ disk w' = Conf c'
      ∧ Config.get c' section_name "endpoint" = ret (metrics_url property_id y' m')
      ∧ Config.get c' section_name "polling_interval" = ret "0 0 5 31 2 ?"
      ∧ last (requests w') = Some (metrics_url property_id y' m')
  else yr = None ∧ mr = None.
Proof. apply get_score_shape. Qed.

Lemma get_score_result_witness :
  ∃ y' m', Some 2024 = Some y' ∧ Some 1 = Some m' ∧ 12 * y' + m' <= 12 * 2024 + 3.
Proof.
  destruct (get_score_result 2 (Sample.third_time 2024 3) "12345" 2024 3
              Sample.tower Sample.one_section 1 (Sample.on_disk Sample.one_section)
              true (Some 2024) (Some 1)
              (rewritten Sample.one_section Sample.tower Sample.tower_options
                 (metrics_url "12345" 2024 1))
              {| disk := Conf (rewritten Sample.one_section Sample.tower
                                 Sample.tower_options (metrics_url "12345" 2024 1));
                 requests := [metrics_url "12345" 2024 3;
                              metrics_url "12345" 2024 2;
                              metrics_url "12345" 2024 1];
                 writes := 1 |})
    as (y' & m' & Hy & Hm & Hle & _).
  - vm_compute. reflexivity.
  - exists y', m'. split; [exact Hy |]. split; [exact Hm | exact Hle].
Defined.

(** X5: As long as no write fails, a search that comes back without success
    has left the config object and the file as they were and has not
    tried to write. *)
Theorem failed_search_changes_nothing fuel env property_id y m section_name c max
    w yr mr c' w' :
  (∀ n, file_write env n = WriteOk) →
  get_score fuel env property_id y m section_name c max w
  = Some (ret (false, yr, mr), c', w') →
  c' = c ∧ disk w' = disk w ∧ writes w' = writes w.
Proof.
  intros Hok. unfold get_score. destruct (String.eqb section_name sentinel).
  { by intros [= _ _ <- <-]. }
  intros H.
  destruct (while_loop_rule env property_id section_name max
              (λ _ c0 w0, c0 = c ∧ disk w0 = disk w ∧ writes w0 = writes w)
              (λ r c0 w0, r.1.1 = false →
                          c0 = c ∧ disk w0 = disk w ∧ writes w0 = writes w))
    with (fuel := fuel) (s := {| year := y; month := m; years_checked := 0 |})
         (c := c) (w := w) (r := ret (false, yr, mr)) (c' := c') (w' := w')
    as (x & Hx & HQ); try done.
  - clear -Hok. intros s c0 w0 f c1 w1 Hi _ Hit. apply iteration_cases in Hit.
    destruct Hit as [(_ & -> & -> & ->)
                    |[(_ & -> & -> & ->)
                     |(d & Hd & _ & -> & [(_ & -> & ->)|(fl & Hfl & _)])]].
    + done.
    + by apply try_previous_month_cases.
    + done.
    + by rewrite Hok in Hfl.
  - injection Hx as <-. by apply HQ.
Qed.

Lemma failed_search_changes_nothing_witness :
  Sample.one_section = Sample.one_section
  ∧ disk {| disk := Conf Sample.one_section;
            requests := [metrics_url "12345" 2024 1];
            writes := 0 |}
    = disk (Sample.on_disk Sample.one_section)
  ∧ writes {| disk := Conf Sample.one_section;
              requests := [metrics_url "12345" 2024 1];
              writes := 0 |}
    = writes (Sample.on_disk Sample.one_section).
Proof.
  apply (failed_search_changes_nothing 0 (Sample.quiet 2024 1) "12345" 2024 1
           Sample.tower Sample.one_section 0
           (Sample.on_disk Sample.one_section) None None).
  - intros n. reflexivity.
  - vm_compute. reflexivity.
Defined.

(** ** Whole runs *)

(** The endings of the [try] block and its handler in the model. *)
Lemma main_endings fuel env w r w' :
  main fuel env w = Some (r, w') →
  match r with
  | NoSections => w' = w
  | Complete _ => True
  | Caught _ _ => False
  | Uncaught e =>
      e = UnboundLocalError ∧ requests w' = requests w
      ∧ (disk w = Garbled
         ∨ ∃ left_behind, file_write env (writes w) = WriteRaises left_behind
                          ∧ disk w' = left_behind)
  end.
Proof.
  unfold main, read_config.
  destruct (disk w) as [| |c] eqn:D; simpl.
  - by intros [= <- <-].
  - intros [= <- <-]. auto.
  - destruct (Config.sections c) as [|s0 rest] eqn:Hs; [by intros [= <- <-] |].
    destruct (disable_polling_total (s0 :: rest) c false) as (c1 & modified & ->).
    cbv beta iota delta [ret].
    destruct (persist_if_modified_spec env modified c1 w) as (_ & P2 & P3 & P4).
    destruct modified.
    + destruct (file_write env (writes w)) as [|fl] eqn:Hw.
      * rewrite P3 by done. cbv beta iota delta [ret].
        destruct (main_pass _ _ _ _ _ _) as [[[[oe t] c2] w2]|] eqn:M; [| done].
        destruct (main_pass_total _ _ _ _ _ _ _ _ _ _ M) as [-> _].
        by intros [= <- <-].
      * rewrite (P4 eq_refl fl) by done. cbv beta iota delta [raise].
        intros [= <- <-]. simpl. split; [done |]. split; [done |].
        right. by exists fl.
    + rewrite P2 by done. cbv beta iota delta [ret].
      destruct (main_pass _ _ _ _ _ _) as [[[[oe t] c2] w2]|] eqn:M; [| done].
      destruct (main_pass_total _ _ _ _ _ _ _ _ _ _ M) as [-> _].
      by intros [= <- <-].
Qed.

(** X8: How a call of [main] can end when the file, if it parses, holds a
    plain config.  An exception of the set-up before the [try] leaves
    uncaught.  Inside the [try] the handler is only ever entered before
    [error_count] exists, from a file that does not parse or from the
    pre-pass write, so it never gets past [error_count += 1]: no such call
    ends with the handler's orderly message, and one that ends in an
    exception has sent no request.  A call that finds no sections changes
    nothing. *)
Theorem main_handler_never_completes setup fuel env w r w' :
  (∀ c, disk w = Conf c → plain_config c = true) →
  run setup fuel env w = Some (r, w') →
  match r with
  | NoSections => w' = w
  | Complete _ => True
  | Caught _ _ => False
  | Uncaught e =>
      requests w' = requests w
      ∧ ((setup = raise e ∧ w' = w)
         ∨ (setup = ret tt ∧ e = UnboundLocalError
            ∧ (disk w = Garbled
               ∨ ∃ left_behind,
                   file_write env (writes w) = WriteRaises left_behind
                   ∧ disk w' = left_behind)))
  end.
Proof.
  intros _. unfold run. destruct setup as [e|[]].
  - intros [= <- <-]. split; [done |]. by left.
  - intros H. apply main_endings in H. destruct r as [| | |e]; try done.
    destruct H as (-> & Hr & Hwhy). split; [done |]. by right.
Qed.

Lemma main_handler_never_completes_witness :
  requests {| disk := Conf Sample.one_section; requests := []; writes := 1 |}
  = requests (Sample.on_disk Sample.one_section)
  ∧ ((ret tt = raise UnboundLocalError
      ∧ {| disk := Conf Sample.one_section; requests := []; writes := 1 |}
        = Sample.on_disk Sample.one_section)
     ∨ (ret tt = ret tt ∧ UnboundLocalError = UnboundLocalError
        ∧ (disk (Sample.on_disk Sample.one_section) = Garbled
           ∨ ∃ left_behind,
               file_write (Sample.read_only Sample.one_section 2024 3)
                 (writes (Sample.on_disk Sample.one_section))
               = WriteRaises left_behind
               ∧ disk {| disk := Conf Sample.one_section; requests := [];
                         writes := 1 |}
                 = left_behind))).
Proof.
  apply (main_handler_never_completes (ret tt) 30
           (Sample.read_only Sample.one_section 2024 3)
           (Sample.on_disk Sample.one_section) (Uncaught UnboundLocalError)
           {| disk := Conf Sample.one_section; requests := []; writes := 1 |}).
  - intros c [= <-]. reflexivity.
  - vm_compute. reflexivity.
Defined.

Lemma persist_if_modified_requests env modified c w :
  requests (persist_if_modified env modified c w).2 = requests w.
Proof.
  unfold persist_if_modified, write_config.
  destruct modified; [| done]. by destruct (file_write env (writes w)).
Qed.

Section Termination.

Context (fuel : nat) (env : Env).
Hypothesis Hmonth : 1 <= current_month env <= 12.
Hypothesis Hfuel : (23 ≤ fuel)%nat.

Lemma process_section_returns section c t w :
  ∃ t' c' w',
    process_section fuel env section c t w = Some (ret t', c', w')
    ∧ (length (requests w) ≤ length (requests w') ≤ length (requests w) + 24)%nat
    ∧ (writes w ≤ writes w')%nat
    ∧ (writes w' - writes w ≤ length (requests w') - length (requests w))%nat.
Proof.
  unfold process_section.
  destruct (String.eqb section sentinel);
    [exists (skipped t), c, w; split; [done | lia] |].
  destruct (Config.has_option c section "endpoint") eqn:Ho; simpl;
    [| exists (skipped t), c, w; split; [done | lia]].
  destruct (has_option_get _ _ _ Ho) as [endpoint ->].
  cbv beta iota delta [ret].
  destruct (extract_property_id endpoint) as [[|a p]|];
    [exists (skipped t), c, w; split; [done | lia] |
     | exists (skipped t), c, w; split; [done | lia]].
  destruct (get_score_returns fuel env (String a p) (current_year env)
              (current_month env) section c 1 w)
    as ([[success yr] mr] & c' & w' & -> & Hl & Hw & Hwl); [done | lia | lia |].
  cbv beta iota delta [ret].
  destruct success; eexists _, c', w'; (split; [reflexivity | lia]).
Qed.

Lemma main_pass_returns secs c t w :
  ∃ t' c' w',
    main_pass fuel env secs c t w = Some (None, t', c', w')
    ∧ (length (requests w) ≤ length (requests w')
       ≤ length (requests w) + 24 * length secs)%nat
    ∧ (writes w ≤ writes w')%nat
    ∧ (writes w' - writes w ≤ length (requests w') - length (requests w))%nat.
Proof.
  revert c t w. induction secs as [|s rest IH]; intros c t w; simpl.
  - exists t, c, w. split; [done | lia].
  - destruct (process_section_returns s c t w) as (t1 & c1 & w1 & -> & B1).
    cbv beta iota delta [ret].
    destruct (IH c1 t1 w1) as (t' & c' & w' & -> & B2).
    exists t', c', w'. split; [done | lia].
Qed.

(** X9: Every run started in a month between 1 and 12 comes to an end, with at
    most 24 requests for each section of the file and at most one attempt
    to write beyond those that follow a request. *)
Theorem main_terminates w :
  ∃ r w',
    main fuel env w = Some (r, w')
    ∧ (length (requests w) ≤ length (requests w')
       ≤ length (requests w)
         + 24 * match read_config w with
                | inr c => length (Config.sections c)
                | inl _ => 0
                end)%nat
    ∧ (writes w' ≤ writes w + 1 + (length (requests w') - length (requests w)))%nat.
Proof.
  unfold main.
  destruct (read_config w) as [e|c]; [eexists _, w; split; [done | lia] |].
  destruct (Config.sections c) as [|s0 rest] eqn:Hs;
    [eexists _, w; split; [done | simpl; lia] |].
  rewrite <- Hs.
  destruct (disable_polling_total (Config.sections c) c false)
    as (c1 & modified & ->).
  cbv beta iota delta [ret].
  destruct (persist_if_modified env modified c1 w) as [[e|c2] w1] eqn:P.
  all: pose proof (persist_if_modified_spec env modified c1 w) as (P1 & _).
  all: pose proof (persist_if_modified_requests env modified c1 w) as Hr.
  all: rewrite P in P1, Hr; simpl in P1, Hr.
  { eexists _, w1. split; [done |]. rewrite Hr. destruct modified; lia. }
  destruct (main_pass_returns (Config.sections c) c2
              {| updated_count := 0; error_count := 0; skipped_count := 0 |} w1)
    as (t' & c' & w' & -> & B).
  eexists _, w'. split; [done |]. rewrite Hr in B. destruct modified; lia.
Qed.

End Termination.

Lemma main_terminates_witness :
  ∃ r w',
    main 23 (Scenario.generous 2024 6) (Sample.on_disk Scenario.campus) = Some (r, w')
    ∧ (length (requests w') ≤ 120)%nat.
Proof.
  destruct (main_terminates 23 (Scenario.generous 2024 6)) with
    (w := Sample.on_disk Scenario.campus) as (r & w' & H & [_ Hl] & _).
  - simpl. lia.
  - lia.
  - exists r, w'. split; [exact H | exact Hl].
Defined.

(** ** Extraction and the URL the script builds *)

(** X14: A property id that is handed back for a URL in ASCII is a non-empty
    run of the digits 0 to 9, and it stands in the URL between [/property/]
    and [/metrics]; so the test [not property_id] of [main] can only fire
    on [None]. *)
Theorem extracted_id_is_digits url property_id :
  ascii_only url = true →
  extract_property_id url = Some property_id →
  property_id ≠ "" ∧ all_digits property_id = true
  ∧ contains ("/property/" ++ property_id ++ "/metrics") url.
Proof.
  intros _ H. destruct (extract_property_id_Some _ _ H) as (Hne & Hd & b & a & ->).
  split; [done |]. split; [done |]. exists b, a.
  by rewrite !str_app_assoc.
Qed.

Lemma extracted_id_is_digits_witness :
  "4711" ≠ "" ∧ all_digits "4711" = true
  ∧ contains ("/property/" ++ "4711" ++ "/metrics")
      "http://localhost/property/4711/metrics".
Proof.
  apply (extracted_id_is_digits "http://localhost/property/4711/metrics" "4711").
  - reflexivity.
  - reflexivity.
Defined.

Lemma re_search_here s ds : match_here s = Some ds → re_search s = Some ds.
Proof. intros H. by rewrite re_search_eq, H. Qed.

Lemma re_search_skip a s :
  match_here (String a s) = None → re_search (String a s) = re_search s.
Proof. intros H. by rewrite re_search_eq, H. Qed.

Lemma extract_metrics_url property_id y m :
  property_id ≠ "" → all_digits property_id = true →
  extract_property_id (metrics_url property_id y m) = Some property_id.
Proof.
  intros Hne Hd. unfold extract_property_id, metrics_url.
  change base_url with ("https://portfoliomanager.energystar.gov/ws" ++ "/property/").
  rewrite str_app_assoc.
  change ("/metrics?year=" ++ pretty y ++ "&month=" ++ pretty m)
    with ("/metrics" ++ ("?year=" ++ pretty y ++ "&month=" ++ pretty m)).
  pose proof (match_here_pattern property_id
                ("?year=" ++ pretty y ++ "&month=" ++ pretty m) Hne Hd) as Hm.
  revert Hm.
  generalize ("/property/" ++ property_id ++ "/metrics"
              ++ ("?year=" ++ pretty y ++ "&month=" ++ pretty m)).
  intros tail Hm. cbv [append].
  repeat (rewrite re_search_skip by reflexivity).
  by apply re_search_here.
Qed.

(** X15: The URL the script builds for a property id made of digits is read
    back by [extract_property_id] as that id, whatever year and month it
    names. *)
Theorem metrics_url_round_trip property_id y m :
  property_id ≠ "" → all_digits property_id = true →
  extract_property_id (metrics_url property_id y m) = Some property_id.
Proof. apply extract_metrics_url. Qed.

Lemma metrics_url_round_trip_witness :
  extract_property_id (metrics_url "9081726" 1999 12) = Some "9081726".
Proof.
  apply (metrics_url_round_trip "9081726" 1999 12); [discriminate | reflexivity].
Defined.

(** X16: After a successful search for a property id taken from an endpoint, the
    endpoint now in the section gives the same property id: the next run
    looks for the same property and does not skip the section. *)
Theorem written_endpoint_reads_back fuel env old_endpoint property_id y m
    section_name c max w yr mr c' w' :
  extract_property_id old_endpoint = Some property_id →
  get_score fuel env property_id y m section_name c max w
  = Some (ret (true, yr, mr), c', w') →
  ∃ new_endpoint,
    Config.get c' section_name "endpoint" = ret new_endpoint
    ∧ extract_property_id new_endpoint = Some property_id.
Proof.
  intros Hx H. destruct (extract_property_id_Some _ _ Hx) as (Hne & Hd & _).
  destruct (get_score_shape _ _ _ _ _ _ _ _ _ _ _ _ _ _ H)
    as (y' & m' & _ & _ & _ & _ & He & _).
  exists (metrics_url property_id y' m'). split; [done |].
  by apply extract_metrics_url.
Qed.

Lemma written_endpoint_reads_back_witness :
  ∃ new_endpoint,
    Config.get
      (rewritten Sample.one_section Sample.tower Sample.tower_options
         (metrics_url "12345" 2024 1)) Sample.tower "endpoint"
    = ret new_endpoint
    ∧ extract_property_id new_endpoint = Some "12345".
Proof.
  refine (written_endpoint_reads_back 2 (Sample.third_time 2024 3)
            (metrics_url "12345" 2023 7) "12345" 2024 3 Sample.tower
            Sample.one_section 1 (Sample.on_disk Sample.one_section)
            (Some 2024) (Some 1) _ _ _ _).
  - reflexivity.
  - vm_compute. reflexivity.
Defined.

(** ** More on the pre-pass *)

Lemma has_section_set c s o v c' s' :
  Config.set c s o v = ret c' → Config.has_section c' s' = Config.has_section c s'.
Proof.
  unfold Config.set, Config.has_section.
  destruct (Config.sects c !! s) as [d|] eqn:E; [| done].
  intros [= <-]. simpl. destruct (decide (s' = s)) as [->|Hne].
  - rewrite lookup_insert_eq, E. by rewrite !bool_decide_eq_true_2 by eauto.
  - by rewrite lookup_insert_ne.
Qed.

(** Credentials depend on the section being there and on two options. *)
Lemma get_credentials_ext c c' s :
  Config.has_section c' s = Config.has_section c s →
  Config.get c' s "auth_user" = Config.get c s "auth_user" →
  Config.get c' s "auth_password" = Config.get c s "auth_password" →
  get_credentials_from_config c' s = get_credentials_from_config c s.
Proof. unfold get_credentials_from_config. by intros -> -> ->. Qed.

Lemma disable_polling_sections secs c m c' m' :
  disable_polling secs c m = ret (c', m') →
  (∀ s, Config.has_section c' s = Config.has_section c s)
  ∧ (∀ o, Config.get c' sentinel o = Config.get c sentinel o).
Proof.
  revert c m. induction secs as [|s0 rest IH]; intros c m.
  - by intros [= <- <-].
  - destruct (disable_polling_cons s0 rest c m)
      as (c1 & m1 & -> & [(-> & -> & _)|(Hs & -> & (Hne & _))]); [apply IH |].
    intros H. destruct (IH _ _ H) as [I1 I2]. split.
    + intros s. by rewrite I1, (has_section_set _ _ _ _ _ s Hs).
    + intros o. rewrite I2. apply (get_set_ne _ _ _ _ _ sentinel o Hs). by left.
Qed.

(** X13: On a plain config the pre-pass is idempotent and narrow: going over
    its own result changes nothing and reports no modification, and it has
    touched no option other than [polling_interval], nothing in the
    sentinel section, and so no endpoint and no credentials. *)
Theorem pre_pass_idempotent c c' modified :
  plain_config c = true →
  disable_polling (Config.sections c) c false = ret (c', modified) →
  disable_polling (Config.sections c') c' false = ret (c', false)
  ∧ Config.sections c' = Config.sections c
  ∧ (∀ s o, o ≠ "polling_interval" → Config.get c' s o = Config.get c s o)
  ∧ (∀ o, Config.get c' sentinel o = Config.get c sentinel o)
  ∧ (∀ s, get_credentials_from_config c' s = get_credentials_from_config c s).
Proof.
  intros _ H.
  destruct (disable_polling_frame _ _ _ _ _ H) as (Hord & _ & Hget & _).
  destruct (disable_polling_sections _ _ _ _ _ H) as [Hsec Hsent].
  split; [| split; [done | split; [done | split; [done |]]]].
  - unfold Config.sections. rewrite Hord.
    apply disable_polling_idle. by apply (disable_polling_settled _ _ _ _ _ H).
  - intros s. apply get_credentials_ext; [done | by apply Hget ..].
Qed.

Lemma pre_pass_idempotent_witness :
  disable_polling (Config.sections Scenario.campus_off) Scenario.campus_off false
  = ret (Scenario.campus_off, false)
  ∧ Config.get Scenario.campus_off sentinel "polling_interval" = ret "60".
Proof.
  destruct (pre_pass_idempotent Scenario.campus Scenario.campus_off true)
    as (H1 & _ & _ & H4 & _).
  - reflexivity.
  - vm_compute. reflexivity.
  - split; [exact H1 |]. rewrite H4. reflexivity.
Defined.

(** ** The updater nothing calls, and the credentials *)

(** X17: [update_endpoint], called on a plain config with a plain endpoint
    for a section whose name is not that of the defaults, lets every
    failure through to its caller.  A missing section raises before
    anything is written.  Otherwise the endpoint is set in the config
    object, no other option is touched, and the outcome of the write
    decides: the file holds the new config, or [OSError] is raised while
    the object keeps the new endpoint. *)
Theorem update_endpoint_raises_again env c section new_endpoint w :
  plain_config c = true → plain_value new_endpoint = true →
  section ≠ "" → section ≠ "DEFAULT" →
  (Config.has_section c section = false →
   update_endpoint env c section new_endpoint w = (raise NoSectionError, c, w))
  ∧ (Config.has_section c section = true →
     ∃ c1,
       Config.get c1 section "endpoint" = ret new_endpoint
       ∧ (∀ s o, s ≠ section ∨ o ≠ "endpoint" →
                 Config.get c1 s o = Config.get c s o)
       ∧ update_endpoint env c section new_endpoint w
         = match file_write env (writes w) with
           | WriteOk =>
               (ret tt, c1,
                {| disk := Conf c1; requests := requests w; writes := S (writes w) |})
           | WriteRaises left_behind =>
               (raise OSError, c1,
                {| disk := left_behind; requests := requests w;
                   writes := S (writes w) |})
           end).
Proof.
  intros _ _ _ _. unfold update_endpoint, Config.has_section.
  destruct (Config.set c section "endpoint" new_endpoint) as [e|c1] eqn:Hs.
  - unfold Config.set in Hs.
    destruct (Config.sects c !! section) as [d|] eqn:Hd; [done |].
    injection Hs as <-. split; [done |].
    by rewrite bool_decide_eq_false_2 by (by intros [? ?]).
  - split.
    + destruct (set_Some _ _ _ _ _ Hs) as [d Hd]. rewrite Hd.
      by rewrite bool_decide_eq_true_2 by eauto.
    + intros _. exists c1. split; [by apply (get_set_eq _ _ _ _ _ Hs) |].
      split; [intros s o Hne; by apply (get_set_ne _ _ _ _ _ s o Hs) |].
      unfold write_config. by destruct (file_write env (writes w)).
Qed.

Lemma update_endpoint_raises_again_witness :
  ∃ c1,
    Config.get c1 Sample.tower "endpoint" = ret (metrics_url "12345" 2024 2)
    ∧ update_endpoint (Sample.read_only Sample.one_section 2024 3)
        Sample.one_section Sample.tower (metrics_url "12345" 2024 2)
        (Sample.on_disk Sample.one_section)
      = (raise OSError, c1,
         {| disk := Conf Sample.one_section; requests := []; writes := 1 |}).
Proof.
  destruct (proj2 (update_endpoint_raises_again
                     (Sample.read_only Sample.one_section 2024 3)
                     Sample.one_section Sample.tower (metrics_url "12345" 2024 2)
                     (Sample.on_disk Sample.one_section)
                     eq_refl eq_refl ltac:(discriminate) ltac:(discriminate))
                  eq_refl)
    as (c1 & He & _ & Hu).
  exists c1. split; [exact He | exact Hu].
Defined.

(** X18: When credentials resolve on a plain config.  They do exactly when
    the section exists and both options can be read, from the section or
    from the defaults; they resolve to nothing exactly when the section or
    one of the two options is missing; and the lookup does not raise. *)
Theorem credentials_resolve c s :
  plain_config c = true →
  (∀ u p,
     get_credentials_from_config c s = ret (Some (u, p))
     ↔ Config.has_section c s = true
       ∧ Config.get c s "auth_user" = ret u
       ∧ Config.get c s "auth_password" = ret p)
  ∧ (get_credentials_from_config c s = ret None
     ↔ Config.has_section c s = false
       ∨ Config.has_option c s "auth_user" = false
       ∨ Config.has_option c s "auth_password" = false)
  ∧ ∃ r, get_credentials_from_config c s = ret r.
Proof.
  intros _. split; [| split; [| apply get_credentials_total]].
  - intros u p. unfold get_credentials_from_config.
    destruct (Config.has_section c s) eqn:Hs; simpl.
    2:{ split; [done | by intros [? _]]. }
    destruct (Config.get c s "auth_user") as [[]|u'] eqn:Hu;
      try (split; [done | by intros (_ & ? & _)]).
    destruct (Config.get c s "auth_password") as [[]|p'] eqn:Hp;
      try (split; [done | by intros (_ & _ & ?)]).
    split.
    + by intros [= -> ->].
    + by intros (_ & [= ->] & [= ->]).
  - unfold get_credentials_from_config.
    destruct (Config.has_section c s) eqn:Hs; simpl; [| split; auto].
    assert (Hsome : ∀ o, Config.has_option c s o = false
                         ↔ Config.get c s o = raise NoOptionError).
    { intros o. destruct (Config.has_option c s o) eqn:Ho.
      - destruct (has_option_get _ _ _ Ho) as [v ->]. split; done.
      - split; [intros _ | done]. unfold Config.has_section in Hs.
        apply bool_decide_eq_true in Hs as [d Hd].
        destruct (Config.get c s o) as [e|v] eqn:Hg.
        + unfold Config.get in Hg. rewrite Hd in Hg.
          destruct (d !! o); [done |].
          destruct (Config.defaults c !! o); [done |]. by injection Hg as <-.
        + apply get_has_option in Hg. congruence. }
    rewrite !Hsome.
    assert (Hno : ∀ o e, Config.get c s o = raise e → e = NoOptionError).
    { intros o e. unfold Config.has_section in Hs.
      apply bool_decide_eq_true in Hs as [d Hd].
      unfold Config.get. rewrite Hd.
      destruct (d !! o); [done |].
      destruct (Config.defaults c !! o); [done |]. by intros [= <-]. }
    destruct (Config.get c s "auth_user") as [e|u'] eqn:Hu.
    { pose proof (Hno _ _ Hu) as ->.
      split; [intros _; right; left; reflexivity | done]. }
    destruct (Config.get c s "auth_password") as [e|p'] eqn:Hp.
    { pose proof (Hno _ _ Hp) as ->.
      split; [intros _; right; right; reflexivity | done]. }
    split; [done | intros [?|[?|?]]; done].
Qed.

Lemma credentials_resolve_witness :
  get_credentials_from_config Scenario.campus Scenario.lobby
  = ret (Some ("viewer", "secret")).
Proof.
  apply (proj1 (credentials_resolve Scenario.campus Scenario.lobby eq_refl)).
  repeat split; reflexivity.
Defined.

(** ** The Skipped count *)

Lemma skips_ext c c' s :
  Config.has_option c' s "endpoint" = Config.has_option c s "endpoint" →
  Config.get c' s "endpoint" = Config.get c s "endpoint" →
  skips c' s = skips c s.
Proof. unfold skips. by intros -> ->. Qed.

(** A search for the property id of a section's endpoint does not change
    which sections the main pass skips. *)
Lemma skips_preserved section property_id c c' endpoint :
  only_endpoint_changed section property_id c c' →
  Config.get c section "endpoint" = ret endpoint →
  extract_property_id endpoint = Some property_id →
  ∀ s, skips c' s = skips c s.
Proof.
  intros (_ & _ & Hget & Hopt & Hmono & Hend) He Hx s.
  destruct (decide (s = section)) as [->|Hne].
  2:{ apply skips_ext; [apply Hopt | apply Hget]; by left. }
  destruct (extract_property_id_Some _ _ Hx) as (Hne & Hd & _).
  pose proof (get_has_option _ _ _ _ He) as Ho.
  unfold skips. rewrite (Hmono _ Ho), Ho, He.
  destruct Hend as [->|(y & m & ->)]; rewrite ?He; cbv beta iota delta [ret].
  - done.
  - by rewrite Hx, (extract_metrics_url property_id y m Hne Hd).
Qed.

Lemma process_section_skips fuel env section c t w r c' w' :
  process_section fuel env section c t w = Some (r, c', w') →
  (∀ s, skips c' s = skips c s)
  ∧ ∃ t', r = ret t'
          ∧ skipped_count t'
            = (skipped_count t + if skips c section then 1 else 0)%nat.
Proof.
  intros H. apply process_section_spec in H.
  destruct H as [(-> & -> & -> & Hwhy)
                |(Hne & endpoint & property_id & success & yr & mr
                  & He & Hx & Hg & ->)].
  - split; [done |]. eexists. split; [done |].
    assert (skips c section = true) as ->; [| simpl; lia].
    unfold skips. destruct Hwhy as [->|[Ho|(endpoint & He & Hx)]].
    + done.
    + rewrite Ho. simpl. by rewrite orb_true_r.
    + rewrite He. cbv beta iota delta [ret]. rewrite Hx. by rewrite orb_true_r.
  - pose proof (get_score_frame _ _ _ _ _ _ _ _ _ _ _ _ Hg) as Hfr.
    split; [by apply (skips_preserved section property_id c c' endpoint) |].
    eexists. split; [done |].
    destruct (extract_property_id_Some _ _ Hx) as (Hnil & _).
    assert (skips c section = false) as ->.
    { unfold skips.
      rewrite (proj2 (String.eqb_neq _ _) Hne), (get_has_option _ _ _ _ He), He.
      cbv beta iota delta [ret]. rewrite Hx. by destruct property_id. }
    destruct success; simpl; lia.
Qed.

Lemma filter_skips_ext c c' secs :
  (∀ s, skips c' s = skips c s) →
  List.filter (skips c') secs = List.filter (skips c) secs.
Proof.
  intros H. induction secs as [|s rest IH]; simpl; [done |].
  by rewrite H, IH.
Qed.

Lemma main_pass_skips fuel env secs c t w oe t' c' w' :
  main_pass fuel env secs c t w = Some (oe, t', c', w') →
  skipped_count t'
  = (skipped_count t + length (List.filter (skips c) secs))%nat.
Proof.
  revert c t w. induction secs as [|s rest IH]; intros c t w; simpl.
  - intros [= _ <- _ _]. lia.
  - destruct (process_section fuel env s c t w) as [[[r c1] w1]|] eqn:P; [| done].
    destruct (process_section_skips _ _ _ _ _ _ _ _ _ P) as (Hs & t1 & -> & Ht).
    intros H. rewrite (IH _ _ _ H), Ht, (filter_skips_ext c c1 rest Hs).
    destruct (skips c s); simpl; lia.
Qed.

(** X10: The Skipped count of a run over a plain config that completes is
    fixed by the file it started from: it is the number of sections that
    are the sentinel, have no endpoint, or have an endpoint without a
    property id, whatever the server answers and whatever the searches of
    other sections write. *)
Theorem skipped_count_from_file fuel env w t w' c :
  main fuel env w = Some (Complete t, w') →
  read_config w = ret c →
  plain_config c = true →
  skipped_count t = length (List.filter (skips c) (Config.sections c)).
Proof.
  unfold main. intros H R _. rewrite R in H. cbv beta iota delta [ret] in H.
  destruct (Config.sections c) as [|s0 rest] eqn:Hs; [done |].
  cbv beta iota in H. rewrite <- Hs in *.
  destruct (disable_polling (Config.sections c) c false) as [e|[c1 modified]] eqn:D;
    [by destruct e |].
  destruct (persist_if_modified env modified c1 w) as [[e|c2] w1] eqn:P;
    [by destruct e |].
  apply persist_if_modified_config in P as ->.
  destruct (main_pass _ _ _ _ _ _) as [[[[oe t1] c3] w2]|] eqn:M; [| done].
  destruct (main_pass_total _ _ _ _ _ _ _ _ _ _ M) as [-> _].
  injection H as <- _.
  rewrite (main_pass_skips _ _ _ _ _ _ _ _ _ _ M). simpl.
  destruct (disable_polling_frame _ _ _ _ _ D) as (_ & Hopt & Hget & _).
  apply f_equal, filter_skips_ext. intros s.
  apply skips_ext; [apply Hopt | by apply Hget].
Qed.

Lemma skipped_count_from_file_witness :
  3%nat = length (List.filter (skips Scenario.campus) (Config.sections Scenario.campus)).
Proof.
  refine (skipped_count_from_file 23 (Scenario.generous 2024 6)
            (Sample.on_disk Scenario.campus)
            {| updated_count := 2; error_count := 0; skipped_count := 3 |}
            _ Scenario.campus _ _ _).
  - vm_compute. reflexivity.
  - reflexivity.
  - reflexivity.
Defined.

(** ** What a run leaves alone *)

Lemma keeps_the_rest_refl c : keeps_the_rest c c.
Proof. unfold keeps_the_rest. auto. Qed.

Lemma keeps_the_rest_trans c1 c2 c3 :
  keeps_the_rest c1 c2 → keeps_the_rest c2 c3 → keeps_the_rest c1 c3.
Proof.
  intros (A1 & A2 & A3 & A4) (B1 & B2 & B3 & B4). unfold keeps_the_rest.
  split; [congruence |]. split; [intros s; by rewrite B2 |].
  split; [intros s o H1 H2; by rewrite B3, A3 | intros o; by rewrite B4].
Qed.

Lemma keeps_the_rest_disable_polling secs c m c' m' :
  disable_polling secs c m = ret (c', m') → keeps_the_rest c c'.
Proof.
  intros H.
  destruct (disable_polling_frame _ _ _ _ _ H) as (Hord & _ & Hget & _).
  destruct (disable_polling_sections _ _ _ _ _ H) as [Hsec Hsent].
  unfold keeps_the_rest. repeat split; try done.
  intros s o _ Ho. by apply Hget.
Qed.

Lemma keeps_the_rest_search section property_id c c' :
  section ≠ sentinel → only_endpoint_changed section property_id c c' →
  keeps_the_rest c c'.
Proof.
  intros Hne (H1 & H2 & H3 & _). unfold keeps_the_rest.
  split; [done |]. split; [done |]. split.
  - intros s o Ho1 Ho2. apply H3. by right.
  - intros o. apply H3. left. congruence.
Qed.

Lemma keeps_the_rest_credentials c c' s :
  keeps_the_rest c c' →
  get_credentials_from_config c' s = get_credentials_from_config c s.
Proof.
  intros (_ & H2 & H3 & _). apply get_credentials_ext; [done | by apply H3 ..].
Qed.

Section GoodDisk.

Context (fuel : nat) (env : Env).
Hypothesis Hok : ∀ n, file_write env n = WriteOk.

(** With a disk that takes every write, the file after a search is the one
    before it or holds the config object the search returns. *)
Lemma get_score_disk property_id y m section_name c max w r c' w' :
  get_score fuel env property_id y m section_name c max w = Some (r, c', w') →
  disk w' = disk w ∨ disk w' = Conf c'.
Proof.
  unfold get_score. destruct (String.eqb section_name sentinel).
  { intros [= _ _ <-]. by left. }
  intros H.
  destruct (while_loop_rule env property_id section_name max
              (λ _ _ w0, disk w0 = disk w)
              (λ _ c0 w0, disk w0 = disk w ∨ disk w0 = Conf c0))
    with (fuel := fuel) (s := {| year := y; month := m; years_checked := 0 |})
         (c := c) (w := w) (r := r) (c' := c') (w' := w') as (x & _ & HQ);
    try done; [by left |].
  clear -Hok. intros s c0 w0 f c1 w1 Hi _ Hit. apply iteration_cases in Hit.
  destruct Hit as [(_ & -> & -> & ->)
                  |[(_ & -> & -> & ->)
                   |(d & Hd & _ & -> & [(_ & -> & ->)|(fl & Hfl & _)])]].
  - by left.
  - apply try_previous_month_cases; [by left | done].
  - by right.
  - by rewrite Hok in Hfl.
Qed.

Lemma process_section_keeps section c t w r c' w' :
  process_section fuel env section c t w = Some (r, c', w') →
  keeps_the_rest c c' ∧ (disk w' = disk w ∨ disk w' = Conf c').
Proof.
  intros H. apply process_section_spec in H.
  destruct H as [(_ & -> & -> & _)
                |(Hne & endpoint & property_id & success & yr & mr
                  & _ & _ & Hg & _)].
  - split; [apply keeps_the_rest_refl | by left].
  - split; [| by apply get_score_disk in Hg].
    eapply keeps_the_rest_search; [done |]. by eapply get_score_frame.
Qed.

Lemma main_pass_keeps c0 secs c t w oe t' c' w' :
  keeps_the_rest c0 c →
  (∃ cd, disk w = Conf cd ∧ keeps_the_rest c0 cd) →
  main_pass fuel env secs c t w = Some (oe, t', c', w') →
  ∃ cd, disk w' = Conf cd ∧ keeps_the_rest c0 cd.
Proof.
  revert c t w. induction secs as [|s rest IH]; intros c t w Hc Hd; simpl.
  - by intros [= _ _ _ <-].
  - destruct (process_section fuel env s c t w) as [[[r c1] w1]|] eqn:P; [| done].
    destruct (process_section_counts _ _ _ _ _ _ _ _ _ P) as (t1 & -> & _).
    destruct (process_section_keeps _ _ _ _ _ _ _ P) as [Hk Hdisk].
    apply IH.
    + by eapply keeps_the_rest_trans.
    + destruct Hdisk as [->| ->]; [done |].
      exists c1. split; [done |]. by eapply keeps_the_rest_trans.
Qed.

End GoodDisk.

(** X11: With a disk that takes every write and a plain config in the file,
    the file after a run still has the sections it had, and nothing in it
    has changed except [endpoint] and [polling_interval] of sections other
    than the sentinel; in particular every section's credentials resolve
    as before. *)
Theorem run_keeps_the_rest fuel env w r w' c :
  (∀ n, file_write env n = WriteOk) →
  disk w = Conf c →
  plain_config c = true →
  main fuel env w = Some (r, w') →
  ∃ c', disk w' = Conf c' ∧ keeps_the_rest c c'
        ∧ ∀ s, get_credentials_from_config c' s = get_credentials_from_config c s.
Proof.
  intros Hok D _ H.
  assert (G : ∃ c', disk w' = Conf c' ∧ keeps_the_rest c c').
  { unfold main, read_config in H. rewrite D in H. cbv beta iota delta [ret] in H.
    destruct (Config.sections c) as [|s0 rest] eqn:Hs.
    { injection H as _ <-. exists c. split; [done | apply keeps_the_rest_refl]. }
    cbv beta iota in H. rewrite <- Hs in *.
    destruct (disable_polling_total (Config.sections c) c false)
      as (c1 & modified & Hdp). rewrite Hdp in H. cbv beta iota delta [ret] in H.
    pose proof (keeps_the_rest_disable_polling _ _ _ _ _ Hdp) as Hk.
    destruct (persist_if_modified_spec env modified c1 w) as (_ & P2 & P3 & _).
    destruct modified.
    - rewrite P3 in H by done. cbv beta iota delta [ret] in H.
      destruct (main_pass _ _ _ _ _ _) as [[[[oe t] c2] w2]|] eqn:M; [| done].
      assert (Hd0 : ∃ cd, disk {| disk := Conf c1; requests := requests w;
                                  writes := S (writes w) |} = Conf cd
                          ∧ keeps_the_rest c cd)
        by (exists c1; split; [reflexivity | exact Hk]).
      destruct (main_pass_keeps fuel env Hok c _ _ _ _ _ _ _ _ Hk Hd0 M)
        as (cd & Hd & Hkd).
      exists cd. split; [| done]. by destruct oe; injection H as _ <-.
    - rewrite P2 in H by done. cbv beta iota delta [ret] in H.
      destruct (main_pass _ _ _ _ _ _) as [[[[oe t] c2] w2]|] eqn:M; [| done].
      assert (Hd0 : ∃ cd, disk w = Conf cd ∧ keeps_the_rest c cd)
        by (exists c; split; [exact D | apply keeps_the_rest_refl]).
      destruct (main_pass_keeps fuel env Hok c _ _ _ _ _ _ _ _ Hk Hd0 M)
        as (cd & Hd & Hkd).
      exists cd. split; [| done]. by destruct oe; injection H as _ <-. }
  destruct G as (c' & Hd & Hk). exists c'. split; [done |]. split; [done |].
  intros s. by apply keeps_the_rest_credentials.
Qed.

Lemma run_keeps_the_rest_witness :
  ∃ c', disk (match main 23 (Scenario.generous 2024 6)
                      (Sample.on_disk Scenario.campus) with
              | Some (_, w') => w'
              | None => Sample.on_disk Scenario.campus
              end) = Conf c'
        ∧ keeps_the_rest Scenario.campus c'
        ∧ ∀ s, get_credentials_from_config c' s
               = get_credentials_from_config Scenario.campus s.
Proof.
  destruct (main 23 (Scenario.generous 2024 6) (Sample.on_disk Scenario.campus))
    as [[r w']|] eqn:E; [| vm_compute in E; discriminate E].
  apply (run_keeps_the_rest 23 (Scenario.generous 2024 6)
           (Sample.on_disk Scenario.campus) r w' Scenario.campus).
  - intros n. reflexivity.
  - reflexivity.
  - reflexivity.
  - exact E.
Defined.

(** ** Polling is off after a run *)

Lemma polling_off_rewritten secs c section d new_endpoint :
  Config.sects c !! section = Some d →
  polling_off secs c → polling_off secs (rewritten c section d new_endpoint).
Proof.
  intros Hd Hoff s Hin Hne Ho.
  destruct (decide (s = section)) as [->|Hs].
  - right. apply get_rewritten.
  - revert Ho. unfold rewritten, Config.has_option, Config.get. simpl.
    rewrite lookup_insert_ne by done. intros Ho. by apply Hoff.
Qed.

Lemma get_score_polling_off secs fuel env property_id y m section_name c max
    w r c' w' :
  polling_off secs c →
  get_score fuel env property_id y m section_name c max w = Some (r, c', w') →
  polling_off secs c'.
Proof.
  intros Hoff. unfold get_score. destruct (String.eqb section_name sentinel).
  { by intros [= _ <- _]. }
  intros H.
  destruct (while_loop_rule env property_id section_name max
              (λ _ c0 _, polling_off secs c0) (λ _ c0 _, polling_off secs c0))
    with (fuel := fuel) (s := {| year := y; month := m; years_checked := 0 |})
         (c := c) (w := w) (r := r) (c' := c') (w' := w') as (x & _ & HQ);
    try done.
  clear. intros s c0 w0 f c1 w1 Hi _ Hit. apply iteration_cases in Hit.
  assert (Hf : polling_off secs c1
               → match f with
                 | Continue _ | Return _ => polling_off secs c1
                 end) by (by destruct f).
  apply Hf.
  destruct Hit as [(_ & _ & -> & _)|[(_ & _ & -> & _)|(d & Hd & _ & -> & _)]];
    [done | done |].
  by apply polling_off_rewritten.
Qed.

Section GoodDiskPolling.

Context (fuel : nat) (env : Env) (secs : list string).
Hypothesis Hok : ∀ n, file_write env n = WriteOk.

Lemma process_section_polling_off section c t w r c' w' :
  polling_off secs c →
  process_section fuel env section c t w = Some (r, c', w') →
  polling_off secs c' ∧ (disk w' = disk w ∨ disk w' = Conf c').
Proof.
  intros Hoff H. apply process_section_spec in H.
  destruct H as [(_ & -> & -> & _)
                |(_ & endpoint & property_id & success & yr & mr
                  & _ & _ & Hg & _)].
  - split; [done | by left].
  - split; [by eapply get_score_polling_off | by eapply get_score_disk].
Qed.

Lemma main_pass_polling_off todo c t w oe t' c' w' :
  polling_off secs c →
  (∃ cd, disk w = Conf cd ∧ polling_off secs cd) →
  main_pass fuel env todo c t w = Some (oe, t', c', w') →
  ∃ cd, disk w' = Conf cd ∧ polling_off secs cd.
Proof.
  revert c t w. induction todo as [|s rest IH]; intros c t w Hc Hd; simpl.
  - by intros [= _ _ _ <-].
  - destruct (process_section fuel env s c t w) as [[[r c1] w1]|] eqn:P; [| done].
    destruct (process_section_counts _ _ _ _ _ _ _ _ _ P) as (t1 & -> & _).
    destruct (process_section_polling_off _ _ _ _ _ _ _ Hc P) as [Hk Hdisk].
    apply IH; [done |].
    destruct Hdisk as [->| ->]; [done | by exists c1].
Qed.

End GoodDiskPolling.

(** X12: What the script is for.  With a disk that takes every write, a run
    over a file that holds a plain config with sections leaves a file in
    which polling is off: every section other than the sentinel that has a
    [polling_interval] has [999999] or the never-firing schedule there. *)
Theorem run_switches_polling_off fuel env w r w' c :
  (∀ n, file_write env n = WriteOk) →
  disk w = Conf c → plain_config c = true → Config.sections c ≠ [] →
  main fuel env w = Some (r, w') →
  ∃ c', disk w' = Conf c' ∧ polling_off (Config.sections c) c'.
Proof.
  intros Hok D _ Hne H.
  unfold main, read_config in H. rewrite D in H. cbv beta iota delta [ret] in H.
  destruct (Config.sections c) as [|s0 rest] eqn:Hs; [done |].
  cbv beta iota in H. rewrite <- Hs in *.
  destruct (disable_polling_total (Config.sections c) c false)
    as (c1 & modified & Hdp). rewrite Hdp in H. cbv beta iota delta [ret] in H.
  assert (Hoff : polling_off (Config.sections c) c1).
  { intros s Hin Hsent Ho. left.
    destruct (disable_polling_frame _ _ _ _ _ Hdp) as (_ & Hopt & _).
    rewrite Hopt in Ho. by apply (disable_polling_post _ _ _ _ _ Hdp). }
  destruct (persist_if_modified_spec env modified c1 w) as (_ & P2 & P3 & _).
  destruct modified.
  - rewrite P3 in H by done. cbv beta iota delta [ret] in H.
    destruct (main_pass _ _ _ _ _ _) as [[[[oe t] c2] w2]|] eqn:M; [| done].
    assert (Hd0 : ∃ cd, disk {| disk := Conf c1; requests := requests w;
                                writes := S (writes w) |} = Conf cd
                        ∧ polling_off (Config.sections c) cd)
      by (exists c1; split; [reflexivity | exact Hoff]).
    destruct (main_pass_polling_off fuel env (Config.sections c) Hok
                _ _ _ _ _ _ _ _ Hoff Hd0 M) as (cd & Hd & Hkd).
    exists cd. split; [| done]. by destruct oe; injection H as _ <-.
  - rewrite P2 in H by done. cbv beta iota delta [ret] in H.
    destruct (disable_polling_frame _ _ _ _ _ Hdp) as (_ & _ & _ & _ & _ & Hsame).
    rewrite Hsame in * by done.
    destruct (main_pass _ _ _ _ _ _) as [[[[oe t] c2] w2]|] eqn:M; [| done].
    assert (Hd0 : ∃ cd, disk w = Conf cd ∧ polling_off (Config.sections c) cd)
      by (exists c; split; [exact D | exact Hoff]).
    destruct (main_pass_polling_off fuel env (Config.sections c) Hok
                _ _ _ _ _ _ _ _ Hoff Hd0 M) as (cd & Hd & Hkd).
    exists cd. split; [| done]. by destruct oe; injection H as _ <-.
Qed.

Lemma run_switches_polling_off_witness :
  ∃ c', disk (match main 23 (Scenario.generous 2024 6)
                      (Sample.on_disk Scenario.campus) with
              | Some (_, w') => w'
              | None => Sample.on_disk Scenario.campus
              end) = Conf c'
        ∧ polling_off (Config.sections Scenario.campus) c'.
Proof.
  destruct (main 23 (Scenario.generous 2024 6) (Sample.on_disk Scenario.campus))
    as [[r w']|] eqn:E; [| vm_compute in E; discriminate E].
  apply (run_switches_polling_off 23 (Scenario.generous 2024 6)
           (Sample.on_disk Scenario.campus) r w' Scenario.campus).
  - intros n. reflexivity.
  - reflexivity.
  - reflexivity.
  - discriminate.
  - exact E.
Defined.
